(** * Event controller of the academic-platform API

    A shallow embedding of [controllers/eventController.js] together with the
    Mongoose schema of [models/event.js], and the properties of the
    event/meeting subsystem proved over it.

    Modelling decisions:
    - an [ObjectId] is a natural number; the identifier that [new Event]
      draws is the store's allocation counter;
    - the [events] collection is the list of its documents in insertion
      order, which is the order [findOne] scans;
    - the collaborating models (User, Subject, Grade, Assignment) are not part
      of this development: they enter as existence lookups in [Env];
    - [save] runs the schema validators and then the insert; the backend's
      answer to the insert of a document is given by [insert_ok]; reads,
      updates and deletes are answered as the collection stands;
    - an absent ([undefined]) request field is [None], and an update does
      not write a field its update document leaves [undefined];
    - [populate] only decorates the JSON that is sent and is left out.

    The event routes, the feedback model, controller and routes and the
    grade controller follow the same lines; each part states its own
    conventions where it starts. *)

From Stdlib Require Import ZArith String.
From stdpp Require Import base decidable option numbers strings list sorting.

Local Open Scope Z_scope.
Local Open Scope string_scope.

(** ** Data model *)

Definition ObjectId := nat.
Bind Scope nat_scope with ObjectId.

(** The fields a caller hands to [new Event({...})]; the request body of
    [createEvent] and [updateEvent] has the same shape. *)
Record Fields := mkFields {
  f_name : option string;
  f_type : option string;
  f_description : option string;
  f_date : option Z;
  f_user_id : option ObjectId;
  f_related_id : option ObjectId;
  f_relatedModel : option string;
  f_time : option string;
  f_duration : option Z
}.

(** A stored document of the [events] collection (models/event.js). *)
Record Event := mkEvent {
  _id : ObjectId;
  name : string;
  type : string;
  description : option string;
  date : Z;
  user_id : ObjectId;
  related_id : option ObjectId;
  relatedModel : option string;
  created_at : Z;
  updated_at : Z;
  time : option string;
  duration : option Z
}.

(** A document built by [new Event] and not yet saved. *)
Record Document := mkDocument {
  d_id : ObjectId;
  d_created : Z;
  d_fields : Fields
}.

(** The request body of [scheduleMeeting]. *)
Record MeetingBody := mkMeetingBody {
  m_name : option string;
  m_description : option string;
  m_date : option Z;
  m_time : option string;
  m_duration : option Z;
  m_advisorId : option ObjectId;
  m_studentId : option ObjectId
}.

(** The query string of [getUserEvents]. *)
Record UserEventsQuery := mkQuery {
  q_type : option string;
  q_past : option string
}.

(** What surrounds the controller: the collaborating collections, the clock
    and the backend's answer to each insert. *)
Record Env := mkEnv {
  User : ObjectId → bool;
  Subject : ObjectId → bool;
  Grade : ObjectId → bool;
  Assignment : ObjectId → bool;
  now : Z;
  insert_ok : ObjectId → bool
}.

Record Store := mkStore {
  events : list Event;
  next_id : ObjectId
}.

Inductive SaveError := ValidationError | WriteError.

Inductive Json :=
  | JMessage (message : string)
  | JError (message : string) (error : SaveError)
  | JEvent (e : Event)
  | JEvents (l : list Event)
  | JMeeting (studentEvent advisorEvent : Event)
  | JCanceled (message : string) (canceledEvents : nat).

Record Response := res {
  status : nat;
  json : Json
}.

Global Instance SaveError_eq_dec : EqDecision SaveError.
Proof. solve_decision. Defined.
Global Instance Event_eq_dec : EqDecision Event.
Proof. solve_decision. Defined.

(** ** JavaScript and Mongoose primitives *)

(** Truthiness of a string-valued field: [undefined] and the empty string
    are falsy. *)
Definition truthy_string (o : option string) : bool :=
  match o with
  | Some s => negb (s =? "")
  | None => false
  end.

(** Truthiness of an identifier-valued field. *)
Definition truthy_id (o : option ObjectId) : bool :=
  match o with
  | Some _ => true
  | None => false
  end.

(** [Model.findById(id)] of a collaborating model, as the truthiness of its
    result; [findById(undefined)] resolves to [null]. *)
Definition findById (model : ObjectId → bool) (id : option ObjectId) : bool :=
  match id with
  | Some i => model i
  | None => false
  end.

Fixpoint mem_string (s : string) (l : list string) : bool :=
  match l with
  | [] => false
  | x :: l' => (s =? x) || mem_string s l'
  end.

Definition type_enum : list string :=
  ["Assignment"; "Exam"; "Reminder"; "Meeting"].

Definition relatedModel_enum : list string :=
  ["Subject"; "Grade"; "Assignment"; "User"].

(** [new Event(fields)]: the document gets a fresh [_id] and the defaults
    [created_at = updated_at = Date.now]. *)
Definition new_Event (env : Env) (f : Fields) (st : Store)
  : Document * Store :=
  (mkDocument (next_id st) (now env) f,
   mkStore (events st) (S (next_id st))).

(** The validators of [eventSchema]: [name], [type], [date] and [user_id]
    are required, [type] and [relatedModel] are enumerations. *)
Definition validate (d : Document) : option Event :=
  let f := d_fields d in
  match f_name f, f_type f, f_date f, f_user_id f with
  | Some n, Some t, Some dt, Some u =>
      if negb (n =? "") && mem_string t type_enum
         && match f_relatedModel f with
            | Some k => mem_string k relatedModel_enum
            | None => true
            end
      then Some (mkEvent (d_id d) n t (f_description f) dt u
                   (f_related_id f) (f_relatedModel f)
                   (d_created d) (d_created d) (f_time f) (f_duration f))
      else None
  | _, _, _, _ => None
  end.

(** [doc.save()]: validation, then the insert. *)
Definition save (env : Env) (d : Document) (st : Store)
  : (SaveError + Event) * Store :=
  match validate d with
  | None => (inl ValidationError, st)
  | Some e =>
      if insert_ok env (d_id d)
      then (inr e, mkStore (events st ++ [e]) (next_id st))
      else (inl WriteError, st)
  end.

(** [Event.findById(id)] and [Event.findOne(filter)]. *)
Definition has_id (id : ObjectId) (e : Event) : bool := Nat.eqb (_id e) id.

Definition findOne (p : Event → bool) (st : Store) : option Event :=
  List.find p (events st).

Definition Event_findById (id : ObjectId) (st : Store) : option Event :=
  findOne (has_id id) st.

(** Removal of the first document that a filter selects. *)
Fixpoint delete_first (p : Event → bool) (l : list Event) : list Event :=
  match l with
  | [] => []
  | e :: l' => if p e then l' else e :: delete_first p l'
  end.

(** [Event.findByIdAndDelete(id)]: the deleted document, if any. *)
Definition findByIdAndDelete (id : ObjectId) (st : Store)
  : option Event * Store :=
  (Event_findById id st,
   mkStore (delete_first (has_id id) (events st)) (next_id st)).

(** The [switch] on [relatedModel] shared by [createEvent] and
    [updateEvent]: the model whose [findById] is asked, [None] in the
    [default] branch. *)
Definition related_model (env : Env) (relatedModel : string)
  : option (ObjectId → bool) :=
  if relatedModel =? "Subject" then Some (Subject env)
  else if relatedModel =? "Grade" then Some (Grade env)
  else if relatedModel =? "Assignment" then Some (Assignment env)
  else if relatedModel =? "User" then Some (User env)
  else None.

(** The reference check that opens [createEvent] and [updateEvent]: [None]
    when the request may go on, the response that ends it otherwise. *)
Definition check_related (env : Env) (f : Fields) : option Response :=
  if truthy_id (f_related_id f) && truthy_string (f_relatedModel f) then
    let relatedModel := default "" (f_relatedModel f) in
    match related_model env relatedModel with
    | None => Some (res 400 (JMessage "Invalid related model"))
    | Some model =>
        if findById model (f_related_id f) then None
        else Some (res 404 (JMessage (relatedModel ++ " not found")))
    end
  else None.

(** ** The controller *)

Definition createEvent (env : Env) (body : Fields) (st : Store)
  : Response * Store :=
  if negb (findById (User env) (f_user_id body)) then
    (res 404 (JMessage "User not found"), st)
  else
    match check_related env body with
    | Some r => (r, st)
    | None =>
        let '(newEvent, st1) := new_Event env body st in
        match save env newEvent st1 with
        | (inr savedEvent, st2) => (res 201 (JEvent savedEvent), st2)
        | (inl err, st2) =>
            (res 500 (JError "Error creating event" err), st2)
        end
    end.

(** Both participants are looked up before anything is built; the two
    documents are then constructed in source order (student, advisor) and
    both [save] calls are issued before their joint result is awaited, so
    the second insert happens whatever the first one answered. *)
Definition scheduleMeeting (env : Env) (body : MeetingBody) (st : Store)
  : Response * Store :=
  let duration := default 30 (m_duration body) in
  let advisor := findById (User env) (m_advisorId body) in
  let student := findById (User env) (m_studentId body) in
  if negb advisor then (res 404 (JMessage "Advisor not found"), st)
  else if negb student then (res 404 (JMessage "Student not found"), st)
  else
    let '(studentEvent, st1) :=
      new_Event env
        (mkFields (m_name body) (Some "Meeting") (m_description body)
           (m_date body) (m_studentId body) (m_advisorId body) (Some "User")
           (m_time body) (Some duration)) st in
    let '(advisorEvent, st2) :=
      new_Event env
        (mkFields (m_name body) (Some "Meeting") (m_description body)
           (m_date body) (m_advisorId body) (m_studentId body) (Some "User")
           (m_time body) (Some duration)) st1 in
    let '(r1, st3) := save env studentEvent st2 in
    let '(r2, st4) := save env advisorEvent st3 in
    match r1, r2 with
    | inr savedStudentEvent, inr savedAdvisorEvent =>
        (res 201 (JMeeting savedStudentEvent savedAdvisorEvent), st4)
    | inl err, _ => (res 500 (JError "Error scheduling meeting" err), st4)
    | _, inl err => (res 500 (JError "Error scheduling meeting" err), st4)
    end.

Definition getAllEvents (st : Store) : Response :=
  res 200 (JEvents (events st)).

Definition getEventById (id : ObjectId) (st : Store) : Response :=
  match Event_findById id st with
  | None => res 404 (JMessage "Event not found")
  | Some event => res 200 (JEvent event)
  end.

(** [past === 'true'] *)
Definition past_flag (q : UserEventsQuery) : bool :=
  match q_past q with
  | Some s => s =? "true"
  | None => false
  end.

(** The filter that [getUserEvents] builds: owner, date side, and the type
    when one is given. *)
Definition user_events_query (env : Env) (userId : ObjectId)
    (q : UserEventsQuery) (e : Event) : bool :=
  Nat.eqb (user_id e) userId
  && (if past_flag q then (date e <? now env)%Z else (now env <=? date e)%Z)
  && (if truthy_string (q_type q)
      then type e =? default "" (q_type q)
      else true).

Definition date_asc : relation Event := λ a b, (date a ≤ date b)%Z.
Definition date_desc : relation Event := λ a b, (date b ≤ date a)%Z.

Global Instance date_asc_dec : RelDecision date_asc.
Proof. intros a b. unfold date_asc. apply _. Defined.
Global Instance date_desc_dec : RelDecision date_desc.
Proof. intros a b. unfold date_desc. apply _. Defined.
Global Instance date_asc_total : Total date_asc.
Proof. intros a b. unfold date_asc. lia. Qed.
Global Instance date_asc_trans : Transitive date_asc.
Proof. intros a b c. unfold date_asc. lia. Qed.
Global Instance date_desc_total : Total date_desc.
Proof. intros a b. unfold date_desc. lia. Qed.
Global Instance date_desc_trans : Transitive date_desc.
Proof. intros a b c. unfold date_desc. lia. Qed.

Definition getUserEvents (env : Env) (userId : ObjectId)
    (q : UserEventsQuery) (st : Store) : Response :=
  if negb (findById (User env) (Some userId)) then
    res 404 (JMessage "User not found")
  else
    let found := List.filter (user_events_query env userId q) (events st) in
    let sorted :=
      if past_flag q then merge_sort date_desc found
      else merge_sort date_asc found in
    res 200 (JEvents sorted).

(** The update document of [updateEvent]: the fields the body carries and
    [updated_at]; a field the body leaves [undefined] is not written, and
    [user_id] is not among the fields the controller reads. *)
Definition apply_update (env : Env) (body : Fields) (e : Event) : Event :=
  mkEvent (_id e)
    (default (name e) (f_name body))
    (default (type e) (f_type body))
    (match f_description body with Some x => Some x | None => description e end)
    (default (date e) (f_date body))
    (user_id e)
    (match f_related_id body with Some x => Some x | None => related_id e end)
    (match f_relatedModel body with
     | Some x => Some x
     | None => relatedModel e
     end)
    (created_at e)
    (now env)
    (match f_time body with Some x => Some x | None => time e end)
    (match f_duration body with Some x => Some x | None => duration e end).

Fixpoint update_first (p : Event → bool) (f : Event → Event)
    (l : list Event) : list Event :=
  match l with
  | [] => []
  | e :: l' => if p e then f e :: l' else e :: update_first p f l'
  end.

(** [Event.findByIdAndUpdate(id, update, { new: true })]: the document as it
    is after the update. *)
Definition findByIdAndUpdate (id : ObjectId) (f : Event → Event) (st : Store)
  : option Event * Store :=
  (f <$> Event_findById id st,
   mkStore (update_first (has_id id) f (events st)) (next_id st)).

Definition updateEvent (env : Env) (id : ObjectId) (body : Fields)
    (st : Store) : Response * Store :=
  match check_related env body with
  | Some r => (r, st)
  | None =>
      match findByIdAndUpdate id (apply_update env body) st with
      | (None, st1) => (res 404 (JMessage "Event not found"), st1)
      | (Some updatedEvent, st1) => (res 200 (JEvent updatedEvent), st1)
      end
  end.

Definition deleteEvent (id : ObjectId) (st : Store) : Response * Store :=
  match findByIdAndDelete id st with
  | (None, st1) => (res 404 (JMessage "Event not found"), st1)
  | (Some _, st1) => (res 200 (JMessage "Event deleted successfully"), st1)
  end.

Definition eqb_option_string (a b : option string) : bool :=
  match a, b with
  | Some x, Some y => x =? y
  | None, None => true
  | _, _ => false
  end.

(** The filter of the counterpart query of [cancelMeeting]. *)
Definition counterpart_query (meetingEvent : Event) (e : Event) : bool :=
  (type e =? "Meeting")
  && (date e =? date meetingEvent)%Z
  && eqb_option_string (time e) (time meetingEvent)
  && match related_id e with
     | Some r => Nat.eqb r (user_id meetingEvent)
     | None => false
     end
  && match related_id meetingEvent with
     | Some r => Nat.eqb (user_id e) r
     | None => false
     end.

Definition cancelMeeting (id : ObjectId) (st : Store) : Response * Store :=
  match Event_findById id st with
  | None => (res 404 (JMessage "Meeting not found"), st)
  | Some meetingEvent =>
      if negb (type meetingEvent =? "Meeting") then
        (res 404 (JMessage "Meeting not found"), st)
      else
        let counterpartMeeting := findOne (counterpart_query meetingEvent) st in
        let '(_, st1) := findByIdAndDelete id st in
        let st2 :=
          match counterpartMeeting with
          | Some c => snd (findByIdAndDelete (_id c) st1)
          | None => st1
          end in
        (res 200 (JCanceled "Meeting canceled successfully"
                    (match counterpartMeeting with
                     | Some _ => 2
                     | None => 1
                     end)%nat), st2)
  end.

(** ** Well-formed stores *)

(** Identifiers are unique in the collection and were all drawn from the
    allocation counter. *)
Definition wf_store (st : Store) : Prop :=
  NoDup (_id <$> events st)
  ∧ Forall (λ e, (_id e < next_id st)%nat) (events st).

(** [id] resolves to no document, or to one whose type is not Meeting. *)
Definition not_a_meeting (id : ObjectId) (st : Store) : Prop :=
  match Event_findById id st with
  | None => True
  | Some e => type e ≠ "Meeting"
  end.

(** The answer of [cancelMeeting] when there is no meeting to cancel. *)
Definition meeting_not_found : Response :=
  res 404 (JMessage "Meeting not found").

(** ** Sample environments, requests and stores *)

(** Users 0 to 5, subject 10, grade 20 and assignment 30 exist; the clock
    reads 1000 and every insert is acknowledged. *)
Definition demo_env : Env :=
  mkEnv (λ i, i <=? 5)%nat (λ i, i =? 10)%nat (λ i, i =? 20)%nat
    (λ i, i =? 30)%nat 1000 (λ _, true).

Definition empty_store : Store := mkStore [] 0.

(** The scenario of the specification: an advising session at 14:30. *)
Definition advising (advisor student : ObjectId) : MeetingBody :=
  mkMeetingBody (Some "Advising") None (Some 2000) (Some "14:30") None
    (Some advisor) (Some student).

(** The store after advisor 1 and student 2 scheduled a meeting. *)
Definition pair_store : Store :=
  snd (scheduleMeeting demo_env (advising 1 2) empty_store).

(** The two documents of that meeting. *)
Definition student_side : Event :=
  mkEvent 0 "Advising" "Meeting" None 2000 2 (Some 1%nat) (Some "User")
    1000 1000 (Some "14:30") (Some 30).

Definition advisor_side : Event :=
  mkEvent 1 "Advising" "Meeting" None 2000 1 (Some 2%nat) (Some "User")
    1000 1000 (Some "14:30") (Some 30).

(** An update that moves an event and tries to hand it to user 5. *)
Definition moved_body : Fields :=
  mkFields (Some "Moved") None None (Some 3000) (Some 5%nat) None None
    (Some "09:00") None.

(** Invariant I1 of the data model, read on a stored document: the
    reference and its kind are present together, and a reference that is
    present resolves in the collection its kind names. *)
Definition I1 (env : Env) (e : Event) : Prop :=
  (is_Some (related_id e) ↔ is_Some (relatedModel e))
  ∧ ∀ rid k, related_id e = Some rid → relatedModel e = Some k →
      ∃ model, related_model env k = Some model ∧ model rid = true.

(** A reminder that refers to subject 10, which exists. *)
Definition subject_reminder : Fields :=
  mkFields (Some "Revise") (Some "Reminder") None (Some 1500) (Some 1%nat)
    (Some 10%nat) (Some "Subject") None None.

(** The same reminder pointing at subject 77, which does not exist. *)
Definition dangling_reminder : Fields :=
  mkFields (Some "Revise") (Some "Reminder") None (Some 1500) (Some 1%nat)
    (Some 77%nat) (Some "Subject") None None.

(** The same reminder with a kind the controller does not know. *)
Definition topic_reminder : Fields :=
  mkFields (Some "Revise") (Some "Reminder") None (Some 1500) (Some 1%nat)
    (Some 77%nat) (Some "Topic") None None.

(** The same reminder with the empty string for a kind. *)
Definition blank_kind_reminder : Fields :=
  mkFields (Some "Revise") (Some "Reminder") None (Some 1500) (Some 1%nat)
    (Some 77%nat) (Some "") None None.

(** The same reminder with a reference and no kind at all. *)
Definition kindless_reminder : Fields :=
  mkFields (Some "Revise") (Some "Reminder") None (Some 1500) (Some 1%nat)
    (Some 77%nat) None None None.

(** What [createEvent] stores for [kindless_reminder] in an empty
    collection. *)
Definition kindless_stored : Event :=
  mkEvent 0 "Revise" "Reminder" None 1500 1 (Some 77%nat) None 1000 1000
    None None.

(** One side of a meeting as the specification describes it: type Meeting,
    the shared name, description, date, time and duration (30 when the
    request gives none), the owner, the other participant as the related
    user. *)
Definition meeting_side (env : Env) (body : MeetingBody) (id : ObjectId)
    (n : string) (d : Z) (owner other : ObjectId) : Event :=
  mkEvent id n "Meeting" (m_description body) d owner (Some other)
    (Some "User") (now env) (now env) (m_time body)
    (Some (default 30 (m_duration body))).

(** A backend that acknowledges the insert of document 0 and fails every
    other insert. *)
Definition flaky_env : Env :=
  mkEnv (λ i, i <=? 5)%nat (λ i, i =? 10)%nat (λ i, i =? 20)%nat
    (λ i, i =? 30)%nat 1000 (λ i, i =? 0)%nat.

(** The reading of the atomicity requirement: a call that does not answer
    201 leaves the collection as it found it. *)
Definition no_record_left_on_failure : Prop :=
  ∀ env body st,
    status (fst (scheduleMeeting env body st)) ≠ 201%nat →
    events (snd (scheduleMeeting env body st)) = events st.

(** The store after user 3 scheduled a meeting with themselves, and its
    two documents. *)
Definition self_store : Store :=
  snd (scheduleMeeting demo_env (advising 3 3) empty_store).

Definition self_first : Event :=
  mkEvent 0 "Advising" "Meeting" None 2000 3 (Some 3%nat) (Some "User")
    1000 1000 (Some "14:30") (Some 30).

Definition self_second : Event :=
  mkEvent 1 "Advising" "Meeting" None 2000 3 (Some 3%nat) (Some "User")
    1000 1000 (Some "14:30") (Some 30).

(** A self-addressed meeting entered through [createEvent]. *)
Definition self_meeting_fields : Fields :=
  mkFields (Some "Think") (Some "Meeting") None (Some 2000) (Some 3%nat)
    (Some 3%nat) (Some "User") (Some "14:30") None.

Definition lone_self_meeting : Event :=
  mkEvent 0 "Think" "Meeting" None 2000 3 (Some 3%nat) (Some "User")
    1000 1000 (Some "14:30") None.

(** An update of the advisor side that renames it, makes it longer and
    relabels the kind of its reference. *)
Definition office_hour_body : Fields :=
  mkFields (Some "Office hour") None (Some "Bring notes") None None None
    (Some "Subject") None (Some 45).

Definition office_hour_store : Store :=
  snd (updateEvent demo_env 1 office_hour_body pair_store).

Definition office_hour : Event :=
  mkEvent 1 "Office hour" "Meeting" (Some "Bring notes") 2000 1
    (Some 2%nat) (Some "Subject") 1000 1000 (Some "14:30") (Some 45).

(** The documents [getUserEvents] is specified to list: those of the user,
    of the given type when a type is given, before the clock when [past] is
    ['true'] and at or after it otherwise. *)
Definition listed (env : Env) (userId : ObjectId) (q : UserEventsQuery)
    (e : Event) : Prop :=
  user_id e = userId
  ∧ match q_type q with
    | Some k => k ≠ "" → type e = k
    | None => True
    end
  ∧ if decide (q_past q = Some "true")
    then (date e < now env)%Z
    else (now env ≤ date e)%Z.

Global Instance listed_dec env userId q e : Decision (listed env userId q e).
Proof.
  unfold listed. destruct (q_type q); destruct (decide (q_past q = _));
    apply _.
Defined.

(** A calendar of user 1 around the clock reading 1000, with one event of
    user 2 in between. *)
Definition calendar_store : Store :=
  mkStore
    [mkEvent 0 "Essay" "Assignment" None 900 1 None None 100 100 None None;
     mkEvent 1 "Midterm" "Exam" None 2500 1 None None 100 100 None None;
     mkEvent 2 "Quiz" "Exam" None 500 1 None None 100 100 None None;
     mkEvent 3 "Lab" "Exam" None 700 2 None None 100 100 None None;
     mkEvent 4 "Final" "Exam" None 1000 1 None None 100 100 None None;
     mkEvent 5 "Call home" "Reminder" None 1200 1 None None 100 100 None None]
    6.

(** An update that turns an event into a party, a type the schema does not
    list. *)
Definition party_body : Fields :=
  mkFields None (Some "Party") None None None None None None None.

(** ** Routing (routes/eventRoutes.js)

    A request path is taken segment by segment. A segment that casts to an
    ObjectId is [Oid i], with [i] the identifier it denotes; any other
    segment is a [Word]. None of the words the routes spell out casts to an
    ObjectId, so a literal of a pattern matches words only. A router tries
    its routes in the order of registration; a route answers a request when
    its pattern matches the whole path and it has a handler for the
    method. Every handler is registered behind [auth.requireSignin], which
    is not part of this development: a request is either let through or
    turned away. A handler that hands a [Word] to a Mongoose query by
    identifier ends in its [catch] block, with status 500 and the message
    of that block. *)

Inductive Method := GET | POST | PUT | DELETE.

Inductive Segment :=
  | Word (w : string)
  | Oid (i : ObjectId).

Inductive PatSeg :=
  | Lit (w : string)
  | Param (name : string).

(** [req.params] *)
Definition Params := list (string * Segment).

Global Instance Method_eq_dec : EqDecision Method.
Proof. solve_decision. Defined.

Fixpoint match_path (pattern : list PatSeg) (path : list Segment)
  : option Params :=
  match pattern, path with
  | [], [] => Some []
  | Lit w :: pattern', Word x :: path' =>
      if x =? w then match_path pattern' path' else None
  | Param name :: pattern', seg :: path' =>
      match match_path pattern' path' with
      | Some params => Some ((name, seg) :: params)
      | None => None
      end
  | _, _ => None
  end.

(** [req.params.name], [None] for [undefined]. *)
Fixpoint param (name : string) (params : Params) : option Segment :=
  match params with
  | [] => None
  | (k, v) :: params' => if k =? name then Some v else param name params'
  end.

(** What a router hands back: the response a handler sent; the 500 of a
    handler's [catch] block after a cast error, with the message of the
    block; the request turned away by [auth.requireSignin]; no route for
    the request. [Undetermined] stands for a call of [findByIdAndUpdate] or
    [findByIdAndDelete] on [undefined], which no route of the tables leads
    to. *)
Inductive Outcome (R : Type) :=
  | Sent (r : R)
  | Thrown (message : string)
  | NotSignedIn
  | NoRoute
  | Undetermined.
Arguments Sent {R} r.
Arguments Thrown {R} message.
Arguments NotSignedIn {R}.
Arguments NoRoute {R}.
Arguments Undetermined {R}.

(** The JSON body of a request to the event routes: the keys the handlers
    destructure. *)
Record Body := mkBody {
  b_name : option string;
  b_type : option string;
  b_description : option string;
  b_date : option Z;
  b_user_id : option ObjectId;
  b_related_id : option ObjectId;
  b_relatedModel : option string;
  b_time : option string;
  b_duration : option Z;
  b_advisorId : option ObjectId;
  b_studentId : option ObjectId
}.

(** The keys [createEvent] and [updateEvent] read. *)
Definition body_fields (b : Body) : Fields :=
  mkFields (b_name b) (b_type b) (b_description b) (b_date b) (b_user_id b)
    (b_related_id b) (b_relatedModel b) (b_time b) (b_duration b).

(** The keys [scheduleMeeting] reads. *)
Definition body_meeting (b : Body) : MeetingBody :=
  mkMeetingBody (b_name b) (b_description b) (b_date b) (b_time b)
    (b_duration b) (b_advisorId b) (b_studentId b).

Record Request := mkRequest {
  r_method : Method;
  r_path : list Segment;
  r_signed_in : bool;
  r_query : UserEventsQuery;
  r_body : Body
}.

Inductive EventHandler :=
  | H_createEvent
  | H_getAllEvents
  | H_getEventById
  | H_updateEvent
  | H_deleteEvent
  | H_scheduleMeeting
  | H_getUserEvents
  | H_cancelMeeting.

(** The routes of [eventRouter] in the order they are registered;
    [route('/api/events/:id')] contributes one line per method. *)
Definition eventRoutes : list (Method * list PatSeg * EventHandler) :=
  [(POST, [Lit "api"; Lit "events"], H_createEvent);
   (GET, [Lit "api"; Lit "events"], H_getAllEvents);
   (GET, [Lit "api"; Lit "events"; Param "id"], H_getEventById);
   (PUT, [Lit "api"; Lit "events"; Param "id"], H_updateEvent);
   (DELETE, [Lit "api"; Lit "events"; Param "id"], H_deleteEvent);
   (GET, [Lit "api"; Lit "events"; Lit "user"; Param "userId"],
    H_getUserEvents);
   (POST, [Lit "api"; Lit "events"; Lit "meetings"], H_scheduleMeeting);
   (DELETE, [Lit "api"; Lit "events"; Lit "meetings"; Param "id"],
    H_cancelMeeting)].

(** The first route that answers a request, with the parameters its
    pattern binds. *)
Fixpoint resolve {H} (routes : list (Method * list PatSeg * H))
    (m : Method) (path : list Segment) : option (H * Params) :=
  match routes with
  | [] => None
  | (m', pattern, h) :: routes' =>
      if bool_decide (m' = m) then
        match match_path pattern path with
        | Some params => Some (h, params)
        | None => resolve routes' m path
        end
      else resolve routes' m path
  end.

(** A handler of the event controller on the request it is given. *)
Definition run_event_handler (h : EventHandler) (env : Env) (req : Request)
    (params : Params) (st : Store) : Outcome Response * Store :=
  match h with
  | H_createEvent =>
      let '(r, st') := createEvent env (body_fields (r_body req)) st in
      (Sent r, st')
  | H_getAllEvents => (Sent (getAllEvents st), st)
  | H_getEventById =>
      match param "id" params with
      | Some (Oid id) => (Sent (getEventById id st), st)
      | Some (Word _) => (Thrown "Error fetching event", st)
      | None => (Sent (res 404 (JMessage "Event not found")), st)
      end
  | H_updateEvent =>
      match param "id" params with
      | Some (Oid id) =>
          let '(r, st') := updateEvent env id (body_fields (r_body req)) st in
          (Sent r, st')
      | Some (Word _) =>
          match check_related env (body_fields (r_body req)) with
          | Some r => (Sent r, st)
          | None => (Thrown "Error updating event", st)
          end
      | None =>
          match check_related env (body_fields (r_body req)) with
          | Some r => (Sent r, st)
          | None => (Undetermined, st)
          end
      end
  | H_deleteEvent =>
      match param "id" params with
      | Some (Oid id) =>
          let '(r, st') := deleteEvent id st in (Sent r, st')
      | Some (Word _) => (Thrown "Error deleting event", st)
      | None => (Undetermined, st)
      end
  | H_scheduleMeeting =>
      let '(r, st') := scheduleMeeting env (body_meeting (r_body req)) st in
      (Sent r, st')
  | H_getUserEvents =>
      match param "userId" params with
      | Some (Oid userId) =>
          (Sent (getUserEvents env userId (r_query req) st), st)
      | Some (Word _) => (Thrown "Error fetching user events", st)
      | None => (Sent (res 404 (JMessage "User not found")), st)
      end
  | H_cancelMeeting =>
      match param "id" params with
      | Some (Oid id) =>
          let '(r, st') := cancelMeeting id st in (Sent r, st')
      | Some (Word _) => (Thrown "Error canceling meeting", st)
      | None => (Sent (res 404 (JMessage "Meeting not found")), st)
      end
  end.

Definition eventRouter (env : Env) (req : Request) (st : Store)
  : Outcome Response * Store :=
  match resolve eventRoutes (r_method req) (r_path req) with
  | None => (NoRoute, st)
  | Some (h, params) =>
      if r_signed_in req then run_event_handler h env req params st
      else (NotSignedIn, st)
  end.

(** The path [/api/events]. *)
Definition api_events : list Segment := [Word "api"; Word "events"].

(** A signed-in request with the given method and path. *)
Definition request (m : Method) (path : list Segment) (q : UserEventsQuery)
    (b : Body) : Request :=
  mkRequest m path true q b.

(** ** Feedback (models/feedback.js, controllers/feedbackController.js,
    routes/feedbackRoutes.js)

    The feedback collection is modelled like the events collection. The
    role of a user is read off the user document, which is not part of this
    development: it enters as the function [role]. A rating is taken to be
    integral. *)

Record Feedback := mkFeedback {
  fb_id : ObjectId;
  advisor_id : ObjectId;
  student_id : ObjectId;
  assignment_id : option ObjectId;
  subject_id : option ObjectId;
  feedback_text : string;
  rating : option Z;
  fb_created_at : Z;
  fb_updated_at : Z
}.

(** The request body of [createFeedback] and [updateFeedback], and the
    [feedbackData] handed to [new Feedback]. *)
Record FeedbackBody := mkFeedbackBody {
  q_advisor_id : option ObjectId;
  q_student_id : option ObjectId;
  q_assignment_id : option ObjectId;
  q_subject_id : option ObjectId;
  q_feedback_text : option string;
  q_rating : option Z
}.

Record FeedbackStore := mkFeedbackStore {
  feedbacks : list Feedback;
  fb_next_id : ObjectId
}.

(** What makes [save] or an update fail: a schema validator, the
    [pre('save')] hook, the backend. *)
Inductive FeedbackError := FValidationError | FHookError | FWriteError.

Inductive FJson :=
  | FMessage (message : string)
  | FError (message : string) (error : FeedbackError)
  | FOne (f : Feedback)
  | FMany (l : list Feedback).

Record FResponse := fres {
  fstatus : nat;
  fjson : FJson
}.

(** [rating: { min: 1, max: 5 }] *)
Definition rating_ok (r : option Z) : bool :=
  match r with
  | Some x => (1 <=? x)%Z && (x <=? 5)%Z
  | None => true
  end.

(** [feedback_text: { required: true }] on a string. *)
Definition text_ok (t : string) : bool := negb (t =? "").

(** The validators of [feedbackSchema] on a new document. *)
Definition validate_feedback (id : ObjectId) (created : Z)
    (data : FeedbackBody) : option Feedback :=
  match q_advisor_id data, q_student_id data, q_feedback_text data with
  | Some a, Some s, Some t =>
      if text_ok t && rating_ok (q_rating data)
      then Some (mkFeedback id a s (q_assignment_id data)
                   (q_subject_id data) t (q_rating data) created created)
      else None
  | _, _, _ => None
  end.

(** The [pre('save')] hook: an assignment or a subject must be there. *)
Definition associated (f : Feedback) : bool :=
  truthy_id (assignment_id f) || truthy_id (subject_id f).

(** [new Feedback(feedbackData)] followed by [save()]: the validators, the
    hook, the insert. *)
Definition save_feedback (env : Env) (data : FeedbackBody)
    (st : FeedbackStore) : (FeedbackError + Feedback) * FeedbackStore :=
  let id := fb_next_id st in
  let st1 := mkFeedbackStore (feedbacks st) (S id) in
  match validate_feedback id (now env) data with
  | None => (inl FValidationError, st1)
  | Some f =>
      if negb (associated f) then (inl FHookError, st1)
      else if insert_ok env id
      then (inr f, mkFeedbackStore (feedbacks st ++ [f]) (S id))
      else (inl FWriteError, st1)
  end.

Definition createFeedback (env : Env) (role : ObjectId → string)
    (body : FeedbackBody) (st : FeedbackStore)
  : FResponse * FeedbackStore :=
  if negb (truthy_id (q_assignment_id body))
     && negb (truthy_id (q_subject_id body)) then
    (fres 400 (FMessage
       "Feedback must be associated with either an Assignment or a Subject."),
     st)
  else
    match q_advisor_id body with
    | None => (fres 404 (FMessage "Advisor not found"), st)
    | Some advisor =>
        if negb (User env advisor) then
          (fres 404 (FMessage "Advisor not found"), st)
        else if negb (role advisor =? "advisor") then
          (fres 403 (FMessage
             "Only users with advisor role can submit feedback"), st)
        else if negb (findById (User env) (q_student_id body)) then
          (fres 404 (FMessage "Student not found"), st)
        else if truthy_id (q_assignment_id body)
                && negb (findById (Assignment env) (q_assignment_id body))
        then (fres 404 (FMessage "Assignment not found"), st)
        else if truthy_id (q_subject_id body)
                && negb (findById (Subject env) (q_subject_id body))
        then (fres 404 (FMessage "Subject not found"), st)
        else
          match save_feedback env body st with
          | (inr savedFeedback, st') => (fres 201 (FOne savedFeedback), st')
          | (inl err, st') =>
              (fres 500 (FError "Error creating feedback" err), st')
          end
    end.

Definition of_student (s : ObjectId) (f : Feedback) : bool :=
  Nat.eqb (student_id f) s.

(** [studentId] is [req.params.studentId], [None] when the route binds no
    such parameter. *)
Definition getFeedbackByStudent (env : Env) (studentId : option ObjectId)
    (st : FeedbackStore) : FResponse :=
  match studentId with
  | None => fres 404 (FMessage "Student not found")
  | Some s =>
      if negb (User env s) then fres 404 (FMessage "Student not found")
      else fres 200 (FMany (List.filter (of_student s) (feedbacks st)))
  end.

Definition getAllFeedback (st : FeedbackStore) : FResponse :=
  fres 200 (FMany (feedbacks st)).

Definition has_fb_id (id : ObjectId) (f : Feedback) : bool :=
  Nat.eqb (fb_id f) id.

(** [updateData]: [updated_at], and the text and the rating when the body
    carries them. *)
Definition apply_feedback_update (env : Env) (body : FeedbackBody)
    (f : Feedback) : Feedback :=
  mkFeedback (fb_id f) (advisor_id f) (student_id f) (assignment_id f)
    (subject_id f)
    (default (feedback_text f) (q_feedback_text body))
    (match q_rating body with Some r => Some r | None => rating f end)
    (fb_created_at f) (now env).

Fixpoint update_first_feedback (p : Feedback → bool)
    (g : Feedback → Feedback) (l : list Feedback) : list Feedback :=
  match l with
  | [] => []
  | f :: l' =>
      if p f then g f :: l' else f :: update_first_feedback p g l'
  end.

Fixpoint delete_first_feedback (p : Feedback → bool) (l : list Feedback)
  : list Feedback :=
  match l with
  | [] => []
  | f :: l' => if p f then l' else f :: delete_first_feedback p l'
  end.

(** [findByIdAndUpdate] with [runValidators: true]: the validators of the
    paths that are set run before the update is sent. *)
Definition updateFeedback (env : Env) (id : ObjectId) (body : FeedbackBody)
    (st : FeedbackStore) : FResponse * FeedbackStore :=
  if negb (match q_feedback_text body with
           | Some t => text_ok t
           | None => true
           end && rating_ok (q_rating body))
  then (fres 500 (FError "Error updating feedback" FValidationError), st)
  else
    match List.find (has_fb_id id) (feedbacks st) with
    | None => (fres 404 (FMessage "Feedback not found"), st)
    | Some f =>
        (fres 200 (FOne (apply_feedback_update env body f)),
         mkFeedbackStore
           (update_first_feedback (has_fb_id id)
              (apply_feedback_update env body) (feedbacks st))
           (fb_next_id st))
    end.

Definition deleteFeedback (id : ObjectId) (st : FeedbackStore)
  : FResponse * FeedbackStore :=
  match List.find (has_fb_id id) (feedbacks st) with
  | None => (fres 404 (FMessage "Feedback not found"), st)
  | Some _ =>
      (fres 200 (FMessage "Feedback deleted successfully"),
       mkFeedbackStore (delete_first_feedback (has_fb_id id) (feedbacks st))
         (fb_next_id st))
  end.

(** [sort({ created_at: -1 })] *)
Definition created_desc : relation Feedback :=
  λ a b, (fb_created_at b ≤ fb_created_at a)%Z.

Global Instance created_desc_dec : RelDecision created_desc.
Proof. intros a b. unfold created_desc. apply _. Defined.
Global Instance created_desc_total : Total created_desc.
Proof. intros a b. unfold created_desc. lia. Qed.
Global Instance created_desc_trans : Transitive created_desc.
Proof. intros a b c. unfold created_desc. lia. Qed.

Definition of_assignment (a : ObjectId) (f : Feedback) : bool :=
  match assignment_id f with
  | Some x => Nat.eqb x a
  | None => false
  end.

Definition of_subject (s : ObjectId) (f : Feedback) : bool :=
  match subject_id f with
  | Some x => Nat.eqb x s
  | None => false
  end.

(** The answer shared by the two listings that refuse to be empty. *)
Definition found_or_404 (message : string) (found : list Feedback)
  : FResponse :=
  match found with
  | [] => fres 404 (FMessage message)
  | _ :: _ => fres 200 (FMany found)
  end.

Definition getFeedbackByAssignment (assignmentId : ObjectId)
    (st : FeedbackStore) : FResponse :=
  found_or_404 "No feedback found for this assignment"
    (merge_sort created_desc
       (List.filter (of_assignment assignmentId) (feedbacks st))).

Definition getFeedbackBySubject (subjectId : ObjectId)
    (st : FeedbackStore) : FResponse :=
  found_or_404 "No feedback found for this subject"
    (merge_sort created_desc
       (List.filter (of_subject subjectId) (feedbacks st))).

Inductive FeedbackHandler :=
  | H_createFeedback
  | H_getFeedbackByStudent
  | H_updateFeedback
  | H_deleteFeedback
  | H_getAllFeedback
  | H_getFeedbackByAssignment
  | H_getFeedbackBySubject.

(** The routes of [feedbackRouter] in the order they are registered. *)
Definition feedbackRoutes : list (Method * list PatSeg * FeedbackHandler) :=
  [(POST, [Lit "api"; Lit "feedback"], H_createFeedback);
   (GET, [Lit "api"; Lit "feedback"; Param "id"], H_getFeedbackByStudent);
   (PUT, [Lit "api"; Lit "feedback"; Param "id"], H_updateFeedback);
   (DELETE, [Lit "api"; Lit "feedback"; Param "id"], H_deleteFeedback);
   (GET, [Lit "api"; Lit "feedback"], H_getAllFeedback);
   (GET, [Lit "api"; Lit "feedback"; Lit "assignment"; Param "assignmentId"],
    H_getFeedbackByAssignment);
   (GET, [Lit "api"; Lit "feedback"; Lit "subject"; Param "subjectId"],
    H_getFeedbackBySubject)].

(** A handler of the feedback controller on the parameters of its route;
    each handler reads the parameter its source names. *)
Definition run_feedback_handler (h : FeedbackHandler) (env : Env)
    (role : ObjectId → string) (body : FeedbackBody) (params : Params)
    (st : FeedbackStore) : Outcome FResponse * FeedbackStore :=
  match h with
  | H_createFeedback =>
      let '(r, st') := createFeedback env role body st in (Sent r, st')
  | H_getFeedbackByStudent =>
      match param "studentId" params with
      | Some (Oid s) => (Sent (getFeedbackByStudent env (Some s) st), st)
      | Some (Word _) => (Thrown "Error fetching feedback", st)
      | None => (Sent (getFeedbackByStudent env None st), st)
      end
  | H_updateFeedback =>
      match param "id" params with
      | Some (Oid id) =>
          let '(r, st') := updateFeedback env id body st in (Sent r, st')
      | Some (Word _) => (Thrown "Error updating feedback", st)
      | None => (Undetermined, st)
      end
  | H_deleteFeedback =>
      match param "id" params with
      | Some (Oid id) =>
          let '(r, st') := deleteFeedback id st in (Sent r, st')
      | Some (Word _) => (Thrown "Error deleting feedback", st)
      | None => (Undetermined, st)
      end
  | H_getAllFeedback => (Sent (getAllFeedback st), st)
  | H_getFeedbackByAssignment =>
      match param "assignmentId" params with
      | Some (Oid a) => (Sent (getFeedbackByAssignment a st), st)
      | Some (Word _) => (Thrown "Error fetching feedback", st)
      | None => (Undetermined, st)
      end
  | H_getFeedbackBySubject =>
      match param "subjectId" params with
      | Some (Oid s) => (Sent (getFeedbackBySubject s st), st)
      | Some (Word _) => (Thrown "Error fetching feedback", st)
      | None => (Undetermined, st)
      end
  end.

Definition feedbackRouter (env : Env) (role : ObjectId → string)
    (m : Method) (path : list Segment) (signed_in : bool)
    (body : FeedbackBody) (st : FeedbackStore)
  : Outcome FResponse * FeedbackStore :=
  match resolve feedbackRoutes m path with
  | None => (NoRoute, st)
  | Some (h, params) =>
      if signed_in then run_feedback_handler h env role body params st
      else (NotSignedIn, st)
  end.

(** What the schema and the hook ask of a stored feedback: an assignment or
    a subject, a text, a rating from 1 to 5 if there is one. *)
Definition feedback_ok (f : Feedback) : Prop :=
  (is_Some (assignment_id f) ∨ is_Some (subject_id f))
  ∧ feedback_text f ≠ ""
  ∧ ∀ r, rating f = Some r → (1 ≤ r ≤ 5)%Z.

(** Advisor 1 writes about student 2 and assignment 30; user 2 has the role
    of a student. *)
Definition demo_role (i : ObjectId) : string :=
  if (i =? 1)%nat then "advisor" else "student".

Definition praise : FeedbackBody :=
  mkFeedbackBody (Some 1%nat) (Some 2%nat) (Some 30%nat) None
    (Some "Well argued") (Some 5).

Definition empty_feedback : FeedbackStore := mkFeedbackStore [] 0.

Definition praised : FeedbackStore :=
  snd (createFeedback demo_env demo_role praise empty_feedback).

Definition praise_stored : Feedback :=
  mkFeedback 0 1 2 (Some 30%nat) None "Well argued" (Some 5) 1000 1000.

(** ** Grades (controllers/gradeController.js)

    The schema of a grade (models/grade.js) is not part of this
    development. A stored grade is modelled by the paths the controller
    writes and reads; the validators of the schema enter as the function
    [schema] on the fields handed to [new Grade]. Numbers are taken to be
    integral. [g_updated_at] is [None] as long as the controller has not
    written it. *)

(** The request body of [createGrade] and [updateGrade]. *)
Record GradeFields := mkGradeFields {
  g_grade : option Z;
  g_s_id : option ObjectId;
  g_a_id : option ObjectId;
  g_uid : option ObjectId;
  g_notes : option string;
  g_outOf : option Z
}.

Record GradeDoc := mkGradeDoc {
  g_id : ObjectId;
  g_fields : GradeFields;
  g_updated_at : option Z
}.

Record GradeStore := mkGradeStore {
  grades : list GradeDoc;
  g_next_id : ObjectId
}.

Inductive GJson :=
  | GMessage (message : string)
  | GError (message : string) (error : SaveError)
  | GOne (g : GradeDoc)
  | GMany (l : list GradeDoc).

Record GResponse := gres {
  gstatus : nat;
  gjson : GJson
}.

Definition createGrade (env : Env) (schema : GradeFields → bool)
    (body : GradeFields) (st : GradeStore) : GResponse * GradeStore :=
  if negb (findById (User env) (g_uid body)) then
    (gres 404 (GMessage "User not found"), st)
  else if negb (findById (Subject env) (g_s_id body)) then
    (gres 404 (GMessage "Subject not found"), st)
  else if truthy_id (g_a_id body)
          && negb (findById (Assignment env) (g_a_id body)) then
    (gres 404 (GMessage "Assignment not found"), st)
  else
    let id := g_next_id st in
    let newGrade := mkGradeDoc id body None in
    let st1 := mkGradeStore (grades st) (S id) in
    if negb (schema body) then
      (gres 500 (GError "Error creating grade" ValidationError), st1)
    else if insert_ok env id then
      (gres 201 (GOne newGrade), mkGradeStore (grades st ++ [newGrade]) (S id))
    else (gres 500 (GError "Error creating grade" WriteError), st1).

Definition of_user (u : ObjectId) (g : GradeDoc) : bool :=
  match g_uid (g_fields g) with
  | Some x => Nat.eqb x u
  | None => false
  end.

Definition getGradesByUser (env : Env) (userId : ObjectId) (st : GradeStore)
  : GResponse :=
  if negb (User env userId) then gres 404 (GMessage "User not found")
  else gres 200 (GMany (List.filter (of_user userId) (grades st))).

Definition has_g_id (id : ObjectId) (g : GradeDoc) : bool :=
  Nat.eqb (g_id g) id.

Definition getGradeById (id : ObjectId) (st : GradeStore) : GResponse :=
  match List.find (has_g_id id) (grades st) with
  | None => gres 404 (GMessage "Grade not found")
  | Some grade => gres 200 (GOne grade)
  end.

Definition getAllGrades (st : GradeStore) : GResponse :=
  gres 200 (GMany (grades st)).

(** The update document of [updateGrade]: the five fields the body may
    carry and [updated_at]; [uid] is not among them. *)
Definition apply_grade_update (env : Env) (body : GradeFields)
    (g : GradeDoc) : GradeDoc :=
  let old := g_fields g in
  let keep {A} (new cur : option A) : option A :=
    match new with Some x => Some x | None => cur end in
  mkGradeDoc (g_id g)
    (mkGradeFields (keep (g_grade body) (g_grade old))
       (keep (g_s_id body) (g_s_id old))
       (keep (g_a_id body) (g_a_id old))
       (g_uid old)
       (keep (g_notes body) (g_notes old))
       (keep (g_outOf body) (g_outOf old)))
    (Some (now env)).

Fixpoint update_first_grade (p : GradeDoc → bool) (h : GradeDoc → GradeDoc)
    (l : list GradeDoc) : list GradeDoc :=
  match l with
  | [] => []
  | g :: l' => if p g then h g :: l' else g :: update_first_grade p h l'
  end.


Definition updateGrade (env : Env) (id : ObjectId) (body : GradeFields)
    (st : GradeStore) : GResponse * GradeStore :=
  if truthy_id (g_s_id body)
     && negb (findById (Subject env) (g_s_id body)) then
    (gres 404 (GMessage "Subject not found"), st)
  else if truthy_id (g_a_id body)
          && negb (findById (Assignment env) (g_a_id body)) then
    (gres 404 (GMessage "Assignment not found"), st)
  else
    match List.find (has_g_id id) (grades st) with
    | None => (gres 404 (GMessage "Grade not found"), st)
    | Some g =>
        (gres 200 (GOne (apply_grade_update env body g)),
         mkGradeStore
           (update_first_grade (has_g_id id) (apply_grade_update env body)
              (grades st))
           (g_next_id st))
    end.





(** User 2 gets 17 out of 20 in subject 10. *)
Definition seventeen : GradeFields :=
  mkGradeFields (Some 17) (Some 10%nat) None (Some 2%nat) None (Some 20).

Definition graded : GradeStore :=
  snd (createGrade demo_env (λ _, true) seventeen (mkGradeStore [] 0)).

(** The counterpart of a meeting document [m] as the specification words
    it: a Meeting on the date and at the time of [m], owned by the user [m]
    is related to and related to the owner of [m]. *)
Definition counterpart_of (m c : Event) : Prop :=
  type c = "Meeting"
  ∧ date c = date m
  ∧ time c = time m
  ∧ related_id m = Some (user_id c)
  ∧ related_id c = Some (user_id m).

(** ** Lookup, deletion and update of documents *)

Section collection.
Implicit Types (l : list Event) (e : Event) (id : ObjectId).

Lemma has_id_true id e : has_id id e = true ↔ _id e = id.
Proof. unfold has_id. apply Nat.eqb_eq. Qed.

Lemma has_id_false id e : has_id id e = false ↔ _id e ≠ id.
Proof. unfold has_id. apply Nat.eqb_neq. Qed.

Lemma find_has_id_Some id l e :
  List.find (has_id id) l = Some e → e ∈ l ∧ _id e = id.
Proof.
  intros H. apply List.find_some in H as [Hin Hid].
  split; [by apply list_elem_of_In | by apply has_id_true].
Qed.

Lemma find_has_id_None id l :
  List.find (has_id id) l = None ↔ id ∉ _id <$> l.
Proof.
  induction l as [|x l IH]; simpl.
  - split; [intros _; apply not_elem_of_nil | done].
  - rewrite not_elem_of_cons. destruct (has_id id x) eqn:Hx.
    + apply has_id_true in Hx. split; [done | intros [Hne _]; congruence].
    + apply has_id_false in Hx. rewrite IH. split; [|tauto].
      intros H. split; [congruence | exact H].
Qed.

Lemma find_has_id_unique id l e :
  NoDup (_id <$> l) → e ∈ l → _id e = id →
  List.find (has_id id) l = Some e.
Proof.
  induction l as [|x l IH]; simpl; intros Hnd Hin Hid.
  - by apply elem_of_nil in Hin.
  - apply NoDup_cons in Hnd as [Hx Hnd].
    apply elem_of_cons in Hin as [->|Hin].
    + by rewrite (proj2 (has_id_true id x) Hid).
    + destruct (has_id id x) eqn:Hxid; [|by apply IH].
      apply has_id_true in Hxid. exfalso. apply Hx.
      rewrite Hxid, <- Hid. by apply list_elem_of_fmap_2.
Qed.

Lemma delete_first_sublist p l : delete_first p l `sublist_of` l.
Proof.
  induction l as [|x l IH]; simpl; [done|].
  destruct (p x); [by apply sublist_cons | by apply sublist_skip].
Qed.

Lemma delete_first_elem_of p l e : e ∈ delete_first p l → e ∈ l.
Proof. intros H. eapply elem_of_sublist, delete_first_sublist. exact H. Qed.

Lemma delete_first_NoDup p l :
  NoDup (_id <$> l) → NoDup (_id <$> delete_first p l).
Proof.
  intros H. eapply sublist_NoDup; [exact H|].
  apply fmap_sublist, delete_first_sublist.
Qed.

Lemma delete_first_none p l :
  List.find p l = None → delete_first p l = l.
Proof.
  induction l as [|x l IH]; simpl; [done|].
  destruct (p x); [done | intros H; by rewrite IH].
Qed.

Lemma delete_first_length p l e :
  List.find p l = Some e → S (length (delete_first p l)) = length l.
Proof.
  induction l as [|x l IH]; simpl; [done|].
  destruct (p x); [done | intros H; simpl; f_equal; by apply IH].
Qed.

(** After the deletion the identifier no longer resolves. *)
Lemma find_delete_first_eq id l :
  NoDup (_id <$> l) →
  List.find (has_id id) (delete_first (has_id id) l) = None.
Proof.
  induction l as [|x l IH]; simpl; intros Hnd; [done|].
  apply NoDup_cons in Hnd as [Hx Hnd].
  destruct (has_id id x) eqn:Hxid; simpl.
  - apply has_id_true in Hxid. apply find_has_id_None. by rewrite <- Hxid.
  - rewrite Hxid. by apply IH.
Qed.

(** Other identifiers resolve as before. *)
Lemma find_delete_first_ne id id' l :
  id ≠ id' →
  List.find (has_id id') (delete_first (has_id id) l)
  = List.find (has_id id') l.
Proof.
  intros Hne. induction l as [|x l IH]; simpl; [done|].
  destruct (has_id id x) eqn:Hxid; simpl.
  - apply has_id_true in Hxid.
    assert (has_id id' x = false) as -> by (apply has_id_false; congruence).
    done.
  - by rewrite IH.
Qed.

Lemma find_delete_first_gone id id' l :
  List.find (has_id id') l = None →
  List.find (has_id id') (delete_first (has_id id) l) = None.
Proof.
  rewrite !find_has_id_None. intros H Hin. apply H.
  eapply elem_of_sublist; [exact Hin|].
  apply fmap_sublist, delete_first_sublist.
Qed.

Lemma update_first_ids p f l :
  (∀ e, _id (f e) = _id e) →
  _id <$> update_first p f l = _id <$> l.
Proof.
  intros Hf. induction l as [|x l IH]; csimpl; [done|].
  destruct (p x); csimpl; [by rewrite Hf | by rewrite IH].
Qed.

Lemma update_first_length p f l : length (update_first p f l) = length l.
Proof.
  induction l as [|x l IH]; simpl; [done|].
  destruct (p x); simpl; by rewrite ?IH.
Qed.

Lemma find_update_first id f l :
  (∀ e, _id (f e) = _id e) →
  List.find (has_id id) (update_first (has_id id) f l)
  = f <$> List.find (has_id id) l.
Proof.
  intros Hf. induction l as [|x l IH]; simpl; [done|].
  destruct (has_id id x) eqn:Hx; simpl.
  - assert (has_id id (f x) = true) as ->; [|done].
    apply has_id_true. rewrite Hf. by apply has_id_true.
  - by rewrite Hx.
Qed.
End collection.

(** ** Cancelling what is not a meeting *)

Lemma cancelMeeting_absent id st :
  not_a_meeting id st → cancelMeeting id st = (meeting_not_found, st).
Proof.
  unfold not_a_meeting, cancelMeeting.
  destruct (Event_findById id st) as [e|]; [|done].
  intros Hty. destruct (type e =? "Meeting") eqn:E; [|done].
  by apply String.eqb_eq in E.
Qed.

(** A successful cancellation leaves no document under [id]. *)
Lemma cancelMeeting_removes id st :
  NoDup (_id <$> events st) →
  status (fst (cancelMeeting id st)) = 200%nat →
  Event_findById id (snd (cancelMeeting id st)) = None.
Proof.
  intros Hnd. unfold cancelMeeting.
  destruct (Event_findById id st) as [m|]; [|done].
  destruct (type m =? "Meeting"); [|done]. simpl. intros _.
  unfold Event_findById, findOne.
  destruct (List.find (counterpart_query m) (events st)) as [c|]; simpl.
  - by apply find_delete_first_gone, find_delete_first_eq.
  - by apply find_delete_first_eq.
Qed.

(** Neither does it leave one under the counterpart it selected. *)
Lemma cancelMeeting_removes_counterpart id st m c :
  NoDup (_id <$> events st) →
  Event_findById id st = Some m →
  type m = "Meeting" →
  findOne (counterpart_query m) st = Some c →
  Event_findById (_id c) (snd (cancelMeeting id st)) = None.
Proof.
  intros Hnd Hm Hty Hc. unfold cancelMeeting.
  rewrite Hm, Hty, Hc. simpl.
  unfold Event_findById, findOne. simpl.
  by apply find_delete_first_eq, delete_first_NoDup.
Qed.

Lemma pair_store_wf : wf_store pair_store.
Proof.
  split.
  - vm_compute. apply (bool_decide_unpack (NoDup [0; 1]%nat)). exact I.
  - vm_compute. repeat constructor.
Defined.

(** C4. When [id] resolves to no document, or to a document whose type is not
    Meeting, [cancelMeeting] answers 404 "Meeting not found" and leaves the
    store as it was; and once a cancellation has succeeded, cancelling the
    same [id] again, or the counterpart that went with it, answers the same
    404 on the store that cancellation left. *)
Theorem cancelMeeting_not_found (st : Store) (id : ObjectId)
    (Hwf : wf_store st) :
  (not_a_meeting id st → cancelMeeting id st = (meeting_not_found, st))
  ∧ (status (fst (cancelMeeting id st)) = 200%nat →
     let st' := snd (cancelMeeting id st) in
     cancelMeeting id st' = (meeting_not_found, st')
     ∧ ∀ m c, Event_findById id st = Some m →
         findOne (counterpart_query m) st = Some c →
         cancelMeeting (_id c) st' = (meeting_not_found, st')).
Proof.
  destruct Hwf as [Hnd _]. split; [apply cancelMeeting_absent|].
  intros Hok st'. split.
  - apply cancelMeeting_absent. unfold not_a_meeting.
    subst st'. by rewrite cancelMeeting_removes.
  - intros m c Hm Hc. apply cancelMeeting_absent. unfold not_a_meeting.
    subst st'. rewrite (cancelMeeting_removes_counterpart id st m c); try done.
    revert Hok. unfold cancelMeeting. rewrite Hm.
    destruct (type m =? "Meeting") eqn:E; [|done].
    intros _. by apply String.eqb_eq.
Qed.

Lemma cancelMeeting_not_found_witness :
  wf_store pair_store
  ∧ cancelMeeting 7 pair_store = (meeting_not_found, pair_store)
  ∧ cancelMeeting 0 (snd (cancelMeeting 0 pair_store))
    = (meeting_not_found, snd (cancelMeeting 0 pair_store))
  ∧ cancelMeeting 1 (snd (cancelMeeting 0 pair_store))
    = (meeting_not_found, snd (cancelMeeting 0 pair_store)).
Proof.
  split; [exact pair_store_wf|].
  destruct (cancelMeeting_not_found pair_store 7 pair_store_wf) as [H7 _].
  destruct (cancelMeeting_not_found pair_store 0 pair_store_wf) as [_ H0].
  split; [apply H7; exact I|].
  destruct (H0 eq_refl) as [Hagain Hcp].
  split; [exact Hagain|].
  destruct (Event_findById 0 pair_store) as [m|] eqn:Hm; [|discriminate Hm].
  destruct (findOne (counterpart_query m) pair_store) as [c|] eqn:Hc.
  - injection Hm as <-. vm_compute in Hc. injection Hc as <-.
    exact (Hcp _ _ eq_refl eq_refl).
  - injection Hm as <-. discriminate Hc.
Defined.

(** ** Scheduling with a missing participant *)

(** C7. When the advisor or the student does not resolve to an existing
    user, [scheduleMeeting] answers 404, naming the advisor if the advisor is
    missing and the student otherwise, and the store is left exactly as it
    was: no document is built or written. *)
Theorem scheduleMeeting_missing_participant (env : Env) (body : MeetingBody)
    (st : Store) :
  findById (User env) (m_advisorId body) = false
  ∨ findById (User env) (m_studentId body) = false →
  scheduleMeeting env body st
  = (res 404 (JMessage (if findById (User env) (m_advisorId body)
                        then "Student not found"
                        else "Advisor not found")), st).
Proof.
  unfold scheduleMeeting.
  destruct (findById (User env) (m_advisorId body)); simpl; [|done].
  intros [Ha|Hs]; [done|]. by rewrite Hs.
Qed.

Lemma scheduleMeeting_missing_participant_witness :
  scheduleMeeting demo_env (advising 9 2) pair_store
  = (res 404 (JMessage "Advisor not found"), pair_store)
  ∧ scheduleMeeting demo_env (advising 1 9) pair_store
    = (res 404 (JMessage "Student not found"), pair_store).
Proof.
  split.
  - apply (scheduleMeeting_missing_participant demo_env (advising 9 2)).
    left. reflexivity.
  - apply (scheduleMeeting_missing_participant demo_env (advising 1 9)).
    right. reflexivity.
Defined.

(** ** What an update leaves alone *)

Lemma apply_update_id env body e : _id (apply_update env body e) = _id e.
Proof. done. Qed.

Lemma apply_update_user_id env body e :
  user_id (apply_update env body e) = user_id e.
Proof. done. Qed.

(** Position by position, the owners in the collection are the same before
    and after any call of [updateEvent]. *)
Lemma updateEvent_owners env id body st :
  user_id <$> events (snd (updateEvent env id body st))
  = user_id <$> events st.
Proof.
  unfold updateEvent. destruct (check_related env body); [done|].
  unfold findByIdAndUpdate.
  destruct (apply_update env body <$> Event_findById id st); simpl.
  all: induction (events st) as [|x l IH]; csimpl; [done|].
  all: destruct (has_id id x); csimpl; by rewrite ?IH.
Qed.

(** C10. [updateEvent] never writes the owner: whatever the body carries,
    also a [user_id], and whatever the call answers, the document stored
    under [id] afterwards has the [user_id] it had before. *)
Theorem updateEvent_keeps_owner (env : Env) (id : ObjectId) (body : Fields)
    (st : Store) (e : Event) :
  Event_findById id st = Some e →
  ∃ e', Event_findById id (snd (updateEvent env id body st)) = Some e'
        ∧ _id e' = _id e
        ∧ user_id e' = user_id e.
Proof.
  intros He. unfold updateEvent.
  destruct (check_related env body); simpl; [by exists e|].
  unfold findByIdAndUpdate. rewrite He. simpl.
  exists (apply_update env body e). split; [|done].
  unfold Event_findById, findOne in *. simpl.
  rewrite find_update_first by done. by rewrite He.
Qed.

Lemma updateEvent_keeps_owner_witness :
  Event_findById 0 pair_store = Some student_side
  ∧ ∃ e', Event_findById 0
            (snd (updateEvent demo_env 0 moved_body pair_store)) = Some e'
          ∧ _id e' = _id student_side
          ∧ user_id e' = user_id student_side.
Proof.
  split; [reflexivity|].
  apply (updateEvent_keeps_owner demo_env 0 moved_body pair_store).
  reflexivity.
Defined.

(** ** The polymorphic reference check *)

Lemma related_model_table env :
  related_model env "Subject" = Some (Subject env)
  ∧ related_model env "Grade" = Some (Grade env)
  ∧ related_model env "Assignment" = Some (Assignment env)
  ∧ related_model env "User" = Some (User env).
Proof. done. Qed.

Lemma mem_string_elem_of s l : mem_string s l = true ↔ s ∈ l.
Proof.
  induction l as [|x l IH]; simpl.
  - split; [done | intros H; by apply elem_of_nil in H].
  - rewrite elem_of_cons, orb_true_iff, IH, String.eqb_eq. done.
Qed.

(** The [default] branch is taken exactly by the tags outside the
    enumeration of the schema. *)
Lemma related_model_None env k :
  related_model env k = None ↔ k ∉ relatedModel_enum.
Proof.
  unfold related_model, relatedModel_enum.
  rewrite !not_elem_of_cons.
  destruct (k =? "Subject") eqn:E1; [apply String.eqb_eq in E1|];
    [split; [done | intros (? & _); done]|].
  destruct (k =? "Grade") eqn:E2; [apply String.eqb_eq in E2|];
    [split; [done | intros (_ & ? & _); done]|].
  destruct (k =? "Assignment") eqn:E3; [apply String.eqb_eq in E3|];
    [split; [done | intros (_ & _ & ? & _); done]|].
  destruct (k =? "User") eqn:E4; [apply String.eqb_eq in E4|];
    [split; [done | intros (_ & _ & _ & ? & _); done]|].
  apply String.eqb_neq in E1, E2, E3, E4.
  split; [intros _ | done]. repeat split; try done. apply not_elem_of_nil.
Qed.

Lemma truthy_string_Some k : k ≠ "" → truthy_string (Some k) = true.
Proof. intros H. simpl. by apply negb_true_iff, String.eqb_neq. Qed.

(** What [check_related] answers once both halves of a reference are
    supplied. *)
Lemma check_related_supplied env f rid k :
  f_related_id f = Some rid → f_relatedModel f = Some k → k ≠ "" →
  check_related env f
  = match related_model env k with
    | None => Some (res 400 (JMessage "Invalid related model"))
    | Some model =>
        if model rid then None
        else Some (res 404 (JMessage (k ++ " not found")))
    end.
Proof.
  intros Hr Hk Hne. unfold check_related.
  rewrite Hr, Hk, (truthy_string_Some k Hne). done.
Qed.

(** A request that passes the check with both halves supplied names a known
    kind, and the referenced document was found. *)
Lemma check_related_passed env f rid k :
  f_related_id f = Some rid → f_relatedModel f = Some k → k ≠ "" →
  check_related env f = None →
  ∃ model, related_model env k = Some model ∧ model rid = true.
Proof.
  intros Hr Hk Hne. rewrite (check_related_supplied env f rid k) by done.
  destruct (related_model env k) as [model|]; [|done].
  destruct (model rid) eqn:E; [|done]. intros _. by exists model.
Qed.

(** The empty tag is a supplied tag that is none of the four kinds, and it
    is not answered 400: [related_id && relatedModel] is falsy for it, the
    reference check is skipped, and the request fails in [save] on the
    enumeration of the schema. *)
Lemma createEvent_blank_kind_is_500 :
  f_related_id blank_kind_reminder = Some 77%nat
  ∧ f_relatedModel blank_kind_reminder = Some ""
  ∧ ("" ∉ relatedModel_enum)
  ∧ createEvent demo_env blank_kind_reminder pair_store
    = (res 500 (JError "Error creating event" ValidationError),
       mkStore (events pair_store) 3)
  ∧ fst (createEvent demo_env blank_kind_reminder pair_store)
    ≠ res 400 (JMessage "Invalid related model").
Proof.
  split; [reflexivity|]. split; [reflexivity|].
  split; [intros Hin; by apply mem_string_elem_of in Hin|].
  split; [reflexivity | discriminate].
Qed.

(** A document whose [relatedModel] is the empty string does not pass the
    validators. *)
Lemma validate_blank_kind d :
  f_relatedModel (d_fields d) = Some "" → validate d = None.
Proof.
  intros Hk. unfold validate. rewrite Hk.
  destruct (f_name (d_fields d)), (f_type (d_fields d)),
    (f_date (d_fields d)), (f_user_id (d_fields d)); try done.
  cbn [mem_string relatedModel_enum String.eqb Ascii.eqb orb].
  by rewrite andb_false_r.
Qed.

(** C6, as the code has it. On a create request that supplies a reference
    and a kind tag: if the owner does not exist the answer is 404 "User not
    found". If the owner exists and the tag is not empty, a tag outside
    Subject, Grade, Assignment, User is answered 400 "Invalid related
    model", and a known tag whose model finds no document under the
    reference is answered 404 "<tag> not found". If the owner exists and
    the tag is the empty string the reference check is skipped and the
    request is answered 500 by the validators. In each of these cases no
    event is persisted: the collection is left as it was. *)
Theorem createEvent_bad_reference (env : Env) (body : Fields) (st : Store)
    (rid : ObjectId) (k : string) :
  f_related_id body = Some rid →
  f_relatedModel body = Some k →
  (findById (User env) (f_user_id body) = false →
   createEvent env body st = (res 404 (JMessage "User not found"), st))
  ∧ (findById (User env) (f_user_id body) = true →
     (k ≠ "" → k ∉ relatedModel_enum →
      createEvent env body st
      = (res 400 (JMessage "Invalid related model"), st))
     ∧ (k ≠ "" →
        ∀ model, related_model env k = Some model → model rid = false →
          createEvent env body st
          = (res 404 (JMessage (k ++ " not found")), st))
     ∧ (k = "" →
        fst (createEvent env body st)
        = res 500 (JError "Error creating event" ValidationError)
        ∧ events (snd (createEvent env body st)) = events st)).
Proof.
  intros Hr Hk. split.
  - intros Hu. unfold createEvent. by rewrite Hu.
  - intros Hu. unfold createEvent. rewrite Hu. cbn [negb].
    split; [|split].
    + intros Hne Hout.
      rewrite (check_related_supplied env body rid k) by done.
      apply (related_model_None env) in Hout. by rewrite Hout.
    + intros Hne model Hm Habs.
      rewrite (check_related_supplied env body rid k) by done.
      by rewrite Hm, Habs.
    + intros ->. unfold check_related. rewrite Hk.
      cbn [truthy_string String.eqb negb andb]. rewrite andb_false_r.
      unfold new_Event, save. by rewrite validate_blank_kind.
Qed.

Lemma createEvent_bad_reference_witness :
  createEvent demo_env topic_reminder pair_store
  = (res 400 (JMessage "Invalid related model"), pair_store)
  ∧ createEvent demo_env dangling_reminder pair_store
    = (res 404 (JMessage "Subject not found"), pair_store)
  ∧ events (snd (createEvent demo_env blank_kind_reminder pair_store))
    = events pair_store.
Proof.
  destruct (createEvent_bad_reference demo_env topic_reminder pair_store 77
              "Topic" eq_refl eq_refl) as [_ Htopic].
  destruct (createEvent_bad_reference demo_env dangling_reminder pair_store
              77 "Subject" eq_refl eq_refl) as [_ Hdangling].
  destruct (createEvent_bad_reference demo_env blank_kind_reminder
              pair_store 77 "" eq_refl eq_refl) as [_ Hblank].
  destruct (Htopic eq_refl) as (H400 & _ & _).
  destruct (Hdangling eq_refl) as (_ & H404 & _).
  destruct (Hblank eq_refl) as (_ & _ & H500).
  split; [|split].
  - apply H400; [discriminate|].
    apply (proj1 (related_model_None demo_env "Topic")). reflexivity.
  - apply (H404 ltac:(discriminate) (Subject demo_env)); reflexivity.
  - apply (H500 eq_refl).
Defined.

(** ** Saving a document *)

(** A document that passes the validators is stored field by field. *)
Lemma validate_Some d e :
  validate d = Some e →
  _id e = d_id d
  ∧ f_name (d_fields d) = Some (name e) ∧ name e ≠ ""
  ∧ f_type (d_fields d) = Some (type e) ∧ type e ∈ type_enum
  ∧ description e = f_description (d_fields d)
  ∧ f_date (d_fields d) = Some (date e)
  ∧ f_user_id (d_fields d) = Some (user_id e)
  ∧ related_id e = f_related_id (d_fields d)
  ∧ relatedModel e = f_relatedModel (d_fields d)
  ∧ (∀ k, relatedModel e = Some k → k ∈ relatedModel_enum)
  ∧ created_at e = d_created d ∧ updated_at e = d_created d
  ∧ time e = f_time (d_fields d)
  ∧ duration e = f_duration (d_fields d).
Proof.
  unfold validate.
  destruct (f_name (d_fields d)) as [n|]; [|done].
  destruct (f_type (d_fields d)) as [t|]; [|done].
  destruct (f_date (d_fields d)) as [dt|]; [|done].
  destruct (f_user_id (d_fields d)) as [u|]; [|done].
  destruct (negb (n =? "")) eqn:En; [|done].
  destruct (mem_string t type_enum) eqn:Et; [|done].
  cbn [andb].
  destruct (f_relatedModel (d_fields d)) as [k|] eqn:Hrel.
  - destruct (mem_string k relatedModel_enum) eqn:Ek; [|done].
    intros H. injection H as <-. cbn [_id name type description date user_id
      related_id relatedModel created_at updated_at time duration].
    apply negb_true_iff, String.eqb_neq in En.
    apply mem_string_elem_of in Et, Ek.
    repeat split; try done. intros k' Hk'. by injection Hk' as <-.
  - intros H. injection H as <-. cbn [_id name type description date user_id
      related_id relatedModel created_at updated_at time duration].
    apply negb_true_iff, String.eqb_neq in En.
    apply mem_string_elem_of in Et.
    repeat split; done.
Qed.

(** [save] either appends the validated document or leaves the collection
    alone. *)
Lemma save_inr env d st e st' :
  save env d st = (inr e, st') →
  validate d = Some e ∧ insert_ok env (d_id d) = true
  ∧ st' = mkStore (events st ++ [e]) (next_id st).
Proof.
  unfold save. destruct (validate d) as [e0|]; [|done].
  destruct (insert_ok env (d_id d)); [|done].
  intros H. by injection H as <- <-.
Qed.

Lemma save_inl env d st err st' :
  save env d st = (inl err, st') → st' = st.
Proof.
  unfold save. destruct (validate d) as [e0|].
  - destruct (insert_ok env (d_id d)); [done|]. intros H. by injection H.
  - intros H. by injection H.
Qed.

(** A successful [createEvent] validated the reference check, allocated the
    next identifier and appended the validated document. *)
Lemma createEvent_created env body st e st' :
  createEvent env body st = (res 201 (JEvent e), st') →
  check_related env body = None
  ∧ validate (mkDocument (next_id st) (now env) body) = Some e
  ∧ st' = mkStore (events st ++ [e]) (S (next_id st)).
Proof.
  unfold createEvent.
  destruct (negb (findById (User env) (f_user_id body))); [done|].
  destruct (check_related env body) as [r|] eqn:Hchk.
  { intros H. injection H as -> _. revert Hchk. unfold check_related.
    destruct (_ && _); [|done].
    destruct (related_model env _); [|done].
    by destruct (findById _ _). }
  unfold new_Event.
  destruct (save env _ _) as [[err|ev] st2] eqn:Hs; [done|].
  intros H. injection H as <- <-.
  apply save_inr in Hs as (Hv & _ & ->). done.
Qed.

(** A successful [updateEvent] passed the reference check and answers the
    document as stored under [id] after the update. *)
Lemma updateEvent_updated env id body st e st' :
  updateEvent env id body st = (res 200 (JEvent e), st') →
  check_related env body = None
  ∧ (∃ e0, Event_findById id st = Some e0 ∧ e = apply_update env body e0)
  ∧ Event_findById id st' = Some e.
Proof.
  unfold updateEvent.
  destruct (check_related env body) as [r|] eqn:Hchk.
  { intros H. injection H as -> _. revert Hchk. unfold check_related.
    destruct (_ && _); [|done].
    destruct (related_model env _); [|done].
    by destruct (findById _ _). }
  unfold findByIdAndUpdate.
  destruct (Event_findById id st) as [e0|] eqn:He0; simpl; [|done].
  intros H. injection H as <- <-.
  split; [done|]. split; [by exists e0|].
  unfold Event_findById, findOne in *. simpl.
  rewrite find_update_first by done. by rewrite He0.
Qed.

(** ** Invariant I1 *)

(** A reference stored without a kind: the check of [createEvent] is
    guarded by [related_id && relatedModel] and is skipped when the kind is
    missing, the schema requires neither field, and the document is saved. *)
Lemma createEvent_kindless_breaks_I1 :
  createEvent demo_env kindless_reminder empty_store
  = (res 201 (JEvent kindless_stored), mkStore [kindless_stored] 1)
  ∧ ¬ I1 demo_env kindless_stored.
Proof.
  split; [reflexivity|].
  intros [[Hpresent _] _].
  destruct Hpresent as [k Hk]; [by exists 77%nat|]. discriminate Hk.
Qed.

(** C5, as the code has it. The reference check is skipped for a body that
    leaves out [related_id] or [relatedModel]. A successful [createEvent]
    appends a document that carries [related_id] and [relatedModel] exactly
    as the body supplied them; if the body supplied both, or neither, I1
    holds on that document. A successful [updateEvent] leaves under [id] a
    document on which each of the two fields is the supplied value, or the
    stored one where the body supplied none; I1 holds on it if the body
    supplied both (with a non-empty kind), or supplied neither while I1 held
    on the document before. *)
Theorem I1_when_both_or_neither (env : Env) (st : Store) :
  (∀ body e st',
     createEvent env body st = (res 201 (JEvent e), st') →
     events st' = (events st ++ [e])%list
     ∧ related_id e = f_related_id body
     ∧ relatedModel e = f_relatedModel body
     ∧ ((is_Some (f_related_id body) ↔ is_Some (f_relatedModel body)) →
        I1 env e))
  ∧ (∀ id body e st',
       updateEvent env id body st = (res 200 (JEvent e), st') →
       Event_findById id st' = Some e
       ∧ (∃ e0, Event_findById id st = Some e0
                ∧ related_id e
                  = match f_related_id body with
                    | Some x => Some x
                    | None => related_id e0
                    end
                ∧ relatedModel e
                  = match f_relatedModel body with
                    | Some x => Some x
                    | None => relatedModel e0
                    end)
       ∧ ((∃ rid k, f_related_id body = Some rid
                    ∧ f_relatedModel body = Some k ∧ k ≠ "")
          ∨ (f_related_id body = None ∧ f_relatedModel body = None
             ∧ ∀ e0, Event_findById id st = Some e0 → I1 env e0) →
          I1 env e))
  ∧ (∀ body, f_related_id body = None ∨ f_relatedModel body = None →
             check_related env body = None).
Proof.
  split; [|split].
  - intros body e st' Hc.
    apply createEvent_created in Hc as (Hchk & Hv & ->).
    apply validate_Some in Hv
      as (_ & _ & _ & _ & _ & _ & _ & _ & Hr & Hk & Henum & _).
    simpl in Hr, Hk. split; [done|]. split; [done|]. split; [done|].
    intros Hiff. unfold I1. rewrite Hr, Hk. split; [done|].
    intros rid k Hrid Hkk.
    apply (check_related_passed env body rid k); try done.
    intros ->. specialize (Henum ""). rewrite Hk in Henum.
    specialize (Henum Hkk). apply mem_string_elem_of in Henum. done.
  - intros id body e st' Hu.
    apply updateEvent_updated in Hu as (Hchk & (e0 & He0 & ->) & Hst').
    split; [done|]. split; [by exists e0|].
    intros [(rid & k & Hrid & Hk & Hne)|(Hrid & Hk & Hold)].
    + unfold I1, apply_update. simpl. rewrite Hrid, Hk.
      split; [split; intros _; eauto|].
      intros rid' k' Hr' Hk'. injection Hr' as <-. injection Hk' as <-.
      by apply (check_related_passed env body rid k).
    + specialize (Hold e0 He0).
      unfold I1, apply_update. simpl. rewrite Hrid, Hk. exact Hold.
  - intros body Hone. unfold check_related.
    destruct Hone as [-> | ->]; [done|].
    by destruct (f_related_id body).
Qed.

Lemma I1_when_both_or_neither_witness :
  (∃ e st', createEvent demo_env subject_reminder pair_store
            = (res 201 (JEvent e), st')
            ∧ events st' = (events pair_store ++ [e])%list ∧ I1 demo_env e)
  ∧ (∃ e st', updateEvent demo_env 0 subject_reminder pair_store
              = (res 200 (JEvent e), st')
              ∧ Event_findById 0 st' = Some e ∧ I1 demo_env e)
  ∧ (∃ e st', createEvent demo_env kindless_reminder pair_store
              = (res 201 (JEvent e), st')
              ∧ related_id e = Some 77%nat ∧ relatedModel e = None)
  ∧ check_related demo_env kindless_reminder = None.
Proof.
  destruct (I1_when_both_or_neither demo_env pair_store) as (Hc & Hu & Hs).
  split; [|split; [|split]].
  - eexists _, _. split; [reflexivity|].
    destruct (Hc subject_reminder _ _ eq_refl) as (Happ & _ & _ & HI1).
    split; [exact Happ|]. apply HI1.
    split; intros _; eexists; reflexivity.
  - eexists _, _. split; [reflexivity|].
    destruct (Hu 0%nat subject_reminder _ _ eq_refl) as (Hfind & _ & HI1).
    split; [exact Hfind|]. apply HI1.
    left. exists 10%nat, "Subject". repeat split. discriminate.
  - eexists _, _. split; [reflexivity|].
    destruct (Hc kindless_reminder _ _ eq_refl) as (_ & Hrid & Hkind & _).
    split; [exact Hrid | exact Hkind].
  - apply Hs. right. reflexivity.
Defined.

(** ** Scheduling a meeting *)

(** C2. When advisor and student both resolve to existing users, the request
    carries a non-empty name and a date (the fields the schema requires) and
    the backend acknowledges both inserts, [scheduleMeeting] answers 201 with
    the student-side and the advisor-side document and appends exactly these
    two to the collection: both of type Meeting, with the same name,
    description, date, time and duration (30 when none is given), owner and
    related user swapped, and [relatedModel] User on both. *)
Theorem scheduleMeeting_pair (env : Env) (body : MeetingBody) (st : Store)
    (a s : ObjectId) (n : string) (d : Z) :
  m_advisorId body = Some a →
  m_studentId body = Some s →
  User env a = true →
  User env s = true →
  m_name body = Some n →
  n ≠ "" →
  m_date body = Some d →
  insert_ok env (next_id st) = true →
  insert_ok env (S (next_id st)) = true →
  let studentEvent := meeting_side env body (next_id st) n d s a in
  let advisorEvent := meeting_side env body (S (next_id st)) n d a s in
  scheduleMeeting env body st
  = (res 201 (JMeeting studentEvent advisorEvent),
     mkStore (events st ++ [studentEvent; advisorEvent])
       (S (S (next_id st)))).
Proof.
  intros Ha Hs Hua Hus Hn Hne Hd Hi1 Hi2. simpl.
  unfold scheduleMeeting, new_Event, save, validate. simpl.
  rewrite Ha, Hs, Hn, Hd. simpl. rewrite Hua, Hus. simpl.
  apply String.eqb_neq in Hne. rewrite Hne. simpl.
  rewrite Hi1, Hi2. simpl. by rewrite <- app_assoc.
Qed.

Lemma scheduleMeeting_pair_witness :
  scheduleMeeting demo_env (advising 1 2) empty_store
  = (res 201 (JMeeting student_side advisor_side),
     mkStore [student_side; advisor_side] 2).
Proof.
  refine (scheduleMeeting_pair demo_env (advising 1 2) empty_store 1 2
            "Advising" 2000 eq_refl eq_refl eq_refl eq_refl eq_refl _
            eq_refl eq_refl eq_refl).
  discriminate.
Defined.

(** One insert acknowledged, the other refused: the call answers 500 and
    the student-side document stays in the collection. *)
Lemma scheduleMeeting_partial_failure :
  scheduleMeeting flaky_env (advising 1 2) empty_store
  = (res 500 (JError "Error scheduling meeting" WriteError),
     mkStore [student_side] 2)
  ∧ ¬ no_record_left_on_failure.
Proof.
  split; [reflexivity|].
  intros H. specialize (H flaky_env (advising 1 2) empty_store).
  assert (events (snd (scheduleMeeting flaky_env (advising 1 2) empty_store))
          = []) as Hnone by (apply H; discriminate).
  discriminate Hnone.
Qed.

(** C1, as the code has it. A call of [scheduleMeeting] that does not answer
    201 removes nothing and performs no compensating delete: the collection
    is the old one followed by at most one document of the call. That
    document is a Meeting whose own insert was acknowledged, and it is there
    exactly when the call failed on a refused insert while the other insert
    was acknowledged; a call that fails for a missing participant, on the
    schema validators or on both inserts adds nothing. *)
Theorem scheduleMeeting_failure_keeps_survivor (env : Env)
    (body : MeetingBody) (st : Store) :
  status (fst (scheduleMeeting env body st)) ≠ 201%nat →
  ∃ l, events (snd (scheduleMeeting env body st)) = (events st ++ l)%list
       ∧ (l = []
          ∨ ∃ e, l = [e] ∧ type e = "Meeting"
                 ∧ insert_ok env (_id e) = true
                 ∧ fst (scheduleMeeting env body st)
                   = res 500 (JError "Error scheduling meeting" WriteError))
       ∧ (json (fst (scheduleMeeting env body st))
          = JError "Error scheduling meeting" WriteError →
          (l = [] ↔ insert_ok env (next_id st) = false
                    ∧ insert_ok env (S (next_id st)) = false)).
Proof.
  unfold scheduleMeeting.
  destruct (findById (User env) (m_advisorId body)) eqn:Ha; simpl.
  2:{ intros _. exists []. rewrite app_nil_r. by repeat split; auto. }
  destruct (findById (User env) (m_studentId body)) eqn:Hs; simpl.
  2:{ intros _. exists []. rewrite app_nil_r. by repeat split; auto. }
  unfold new_Event, save, validate. simpl.
  destruct (m_advisorId body) as [a|]; [|done].
  destruct (m_studentId body) as [s|]; [|done].
  destruct (m_name body) as [n|]; simpl.
  2:{ intros _. exists []. rewrite app_nil_r. by repeat split; auto. }
  destruct (m_date body) as [d|]; simpl.
  2:{ intros _. exists []. rewrite app_nil_r. by repeat split; auto. }
  destruct (negb (n =? "")); simpl.
  2:{ intros _. exists []. rewrite app_nil_r. by repeat split; auto. }
  destruct (insert_ok env (next_id st)) eqn:Hi1;
    destruct (insert_ok env (S (next_id st))) eqn:Hi2; simpl; intros Hst.
  - done.
  - eexists [_]. split; [done|]. split.
    + right. eexists. repeat split; done.
    + intros _. split; [done | intros [? _]; done].
  - eexists [_]. split; [done|]. split.
    + right. eexists. repeat split; done.
    + intros _. split; [done | intros [_ ?]; done].
  - exists []. rewrite app_nil_r. by repeat split; auto.
Qed.

Lemma scheduleMeeting_failure_keeps_survivor_witness :
  ∃ l, events (snd (scheduleMeeting flaky_env (advising 1 2) empty_store))
       = (events empty_store ++ l)%list
       ∧ (l = []
          ∨ ∃ e, l = [e] ∧ type e = "Meeting"
                 ∧ insert_ok flaky_env (_id e) = true
                 ∧ fst (scheduleMeeting flaky_env (advising 1 2) empty_store)
                   = res 500 (JError "Error scheduling meeting" WriteError))
       ∧ (json (fst (scheduleMeeting flaky_env (advising 1 2) empty_store))
          = JError "Error scheduling meeting" WriteError →
          (l = [] ↔ insert_ok flaky_env (next_id empty_store) = false
                    ∧ insert_ok flaky_env (S (next_id empty_store)) = false)).
Proof.
  apply (scheduleMeeting_failure_keeps_survivor flaky_env (advising 1 2)
           empty_store).
  discriminate.
Defined.

(** ** Cancelling a meeting *)

(** The number of documents a successful cancellation removes. The second
    delete is aimed at the document the counterpart query returned: it
    removes a further document unless that document is the primary itself,
    which the first delete has already removed. *)
Lemma cancelMeeting_counts id st m :
  NoDup (_id <$> events st) →
  Event_findById id st = Some m →
  type m = "Meeting" →
  match findOne (counterpart_query m) st with
  | Some c =>
      fst (cancelMeeting id st)
      = res 200 (JCanceled "Meeting canceled successfully" 2)
      ∧ (length (events (snd (cancelMeeting id st)))
         + (if decide (_id c = id) then 1 else 2))%nat
        = length (events st)
  | None =>
      fst (cancelMeeting id st)
      = res 200 (JCanceled "Meeting canceled successfully" 1)
      ∧ S (length (events (snd (cancelMeeting id st)))) = length (events st)
  end.
Proof.
  intros Hnd Hm Hty. unfold cancelMeeting. rewrite Hm, Hty. simpl.
  pose proof (delete_first_length _ _ _ Hm) as Hlen1.
  destruct (findOne (counterpart_query m) st) as [c|] eqn:Hc; simpl;
    [|done].
  split; [done|].
  apply List.find_some in Hc as [Hin _]. apply list_elem_of_In in Hin.
  destruct (decide (_id c = id)) as [Heq|Hne].
  - rewrite Heq, delete_first_none; [lia|].
    by apply find_delete_first_eq.
  - assert (List.find (has_id (_id c)) (delete_first (has_id id) (events st))
            = Some c) as Hc'.
    { rewrite find_delete_first_ne by done.
      by apply find_has_id_unique. }
    apply delete_first_length in Hc'. lia.
Qed.

(** A primary whose related user is not its owner is never its own
    counterpart. *)
Lemma counterpart_is_another id st m c :
  NoDup (_id <$> events st) →
  Event_findById id st = Some m →
  related_id m ≠ Some (user_id m) →
  findOne (counterpart_query m) st = Some c →
  _id c ≠ id.
Proof.
  intros Hnd Hm Hself Hc Heq.
  apply List.find_some in Hc as [Hin Hq]. apply list_elem_of_In in Hin.
  assert (Event_findById id st = Some c) as Hm'
    by by apply find_has_id_unique.
  rewrite Hm in Hm'. injection Hm' as <-.
  unfold counterpart_query in Hq.
  destruct (related_id m) as [r|]; [|by rewrite andb_false_r in Hq].
  apply andb_prop in Hq as [_ Hq]. apply Nat.eqb_eq in Hq.
  apply Hself. by rewrite Hq.
Qed.

(** C3 on the code. User 3 schedules a meeting with themselves, which
    [scheduleMeeting] accepts, and cancels the first of its two documents.
    The second document answers the counterpart query, so a counterpart
    exists; but so does the primary, which the query does not exclude and
    which [findOne] meets first. Both deletes hit the primary: the call
    answers [canceledEvents = 2], one document is removed and the second
    stays behind. The same happens to a self-addressed meeting that stands
    alone: one document removed, two reported. *)
Theorem cancelMeeting_self_counterpart :
  events self_store = [self_first; self_second]
  ∧ counterpart_query self_first self_second = true
  ∧ cancelMeeting 0 self_store
    = (res 200 (JCanceled "Meeting canceled successfully" 2),
       mkStore [self_second] 2)
  ∧ createEvent demo_env self_meeting_fields empty_store
    = (res 201 (JEvent lone_self_meeting), mkStore [lone_self_meeting] 1)
  ∧ cancelMeeting 0 (mkStore [lone_self_meeting] 1)
    = (res 200 (JCanceled "Meeting canceled successfully" 2),
       mkStore [] 1).
Proof. repeat split; reflexivity. Qed.

(** ** Listing the events of a user *)

Lemma past_flag_true q : past_flag q = true ↔ q_past q = Some "true".
Proof.
  unfold past_flag. destruct (q_past q) as [s|]; [|done].
  rewrite String.eqb_eq. split; [by intros -> | by intros [= ->]].
Qed.

(** The filter built by the controller selects the documents the
    specification lists. *)
Lemma user_events_query_listed env userId q e :
  user_events_query env userId q e = true ↔ listed env userId q e.
Proof.
  unfold user_events_query, listed.
  rewrite !andb_true_iff, Nat.eqb_eq.
  assert ((if past_flag q then (date e <? now env)%Z
           else (now env <=? date e)%Z) = true
          ↔ if decide (q_past q = Some "true")
            then (date e < now env)%Z
            else (now env ≤ date e)%Z) as Hdate.
  { destruct (decide (q_past q = Some "true")) as [Hp|Hp].
    - rewrite (proj2 (past_flag_true q) Hp). apply Z.ltb_lt.
    - destruct (past_flag q) eqn:Hf;
        [by apply past_flag_true in Hf | apply Z.leb_le]. }
  assert ((if truthy_string (q_type q)
           then type e =? default "" (q_type q)
           else true) = true
          ↔ match q_type q with
            | Some k => k ≠ "" → type e = k
            | None => True
            end) as Htype.
  { destruct (q_type q) as [k|]; simpl; [|done].
    destruct (k =? "") eqn:Ek; simpl.
    - apply String.eqb_eq in Ek. tauto.
    - apply String.eqb_neq in Ek. rewrite String.eqb_eq. tauto. }
  tauto.
Qed.

Lemma filter_bool_Prop {A} (f : A → bool) (P : A → Prop)
    `{∀ x, Decision (P x)} (l : list A) :
  (∀ x, f x = true ↔ P x) → List.filter f l = filter P l.
Proof.
  intros Hf. induction l as [|x l IH]; simpl; [done|].
  rewrite filter_cons, IH.
  destruct (decide (P x)) as [HP|HP].
  - by rewrite (proj2 (Hf x) HP).
  - destruct (f x) eqn:E; [by apply Hf in E | done].
Qed.

(** C8. For an existing user, [getUserEvents] answers 200 with a list that
    holds exactly the documents of that user (of the given type, when a
    non-empty type is given) dated before the clock when [past] is ['true']
    and at or after it otherwise, each as often as it is stored; the list is
    in descending order of date in the first case and in ascending order in
    the second. *)
Theorem getUserEvents_lists (env : Env) (userId : ObjectId)
    (q : UserEventsQuery) (st : Store) :
  User env userId = true →
  ∃ l, getUserEvents env userId q st = res 200 (JEvents l)
       ∧ l ≡ₚ filter (listed env userId q) (events st)
       ∧ if decide (q_past q = Some "true")
         then StronglySorted date_desc l
         else StronglySorted date_asc l.
Proof.
  intros Hu. unfold getUserEvents. simpl. rewrite Hu. simpl.
  rewrite (filter_bool_Prop _ (listed env userId q))
    by apply user_events_query_listed.
  destruct (decide (q_past q = Some "true")) as [Hp|Hp].
  - rewrite (proj2 (past_flag_true q) Hp).
    eexists. split; [done|]. split.
    + apply merge_sort_Permutation.
    + apply StronglySorted_merge_sort; apply _.
  - destruct (past_flag q) eqn:Hf; [by apply past_flag_true in Hf|].
    eexists. split; [done|]. split.
    + apply merge_sort_Permutation.
    + apply StronglySorted_merge_sort; apply _.
Qed.

Lemma getUserEvents_lists_witness :
  (∃ l, getUserEvents demo_env 1 (mkQuery (Some "Exam") (Some "true"))
          calendar_store = res 200 (JEvents l)
        ∧ l ≡ₚ filter (listed demo_env 1
                          (mkQuery (Some "Exam") (Some "true")))
                 (events calendar_store)
        ∧ StronglySorted date_desc l)
  ∧ (∃ l, getUserEvents demo_env 1 (mkQuery None None) calendar_store
          = res 200 (JEvents l)
          ∧ l ≡ₚ filter (listed demo_env 1 (mkQuery None None))
                   (events calendar_store)
          ∧ StronglySorted date_asc l).
Proof.
  split.
  - apply (getUserEvents_lists demo_env 1
             (mkQuery (Some "Exam") (Some "true")) calendar_store).
    reflexivity.
  - apply (getUserEvents_lists demo_env 1 (mkQuery None None)
             calendar_store).
    reflexivity.
Defined.

(** The listing on the sample calendar: past events newest first, upcoming
    events oldest first, an event dated at the clock counted as upcoming. *)
Example getUserEvents_calendar :
  getUserEvents demo_env 1 (mkQuery None (Some "true")) calendar_store
  = res 200 (JEvents
      [mkEvent 0 "Essay" "Assignment" None 900 1 None None 100 100 None None;
       mkEvent 2 "Quiz" "Exam" None 500 1 None None 100 100 None None])
  ∧ getUserEvents demo_env 1 (mkQuery (Some "Exam") None) calendar_store
    = res 200 (JEvents
        [mkEvent 4 "Final" "Exam" None 1000 1 None None 100 100 None None;
         mkEvent 1 "Midterm" "Exam" None 2500 1 None None 100 100 None None]).
Proof. split; vm_compute; reflexivity. Qed.

(** ** Well-formedness is an invariant of the controller *)

Section invariant.
Implicit Types (st : Store) (d : Document).

Lemma wf_empty_store : wf_store empty_store.
Proof. split; [apply NoDup_nil_2 | apply Forall_nil_2]. Qed.

Lemma wf_unused st i :
  wf_store st → (next_id st ≤ i)%nat → i ∉ _id <$> events st.
Proof.
  intros [_ Hlt] Hi Hin. apply list_elem_of_fmap in Hin as (e & -> & He).
  rewrite Forall_forall in Hlt. specialize (Hlt e He). lia.
Qed.

(** Drawing an identifier keeps the store well formed and hands out an
    identifier no document carries. *)
Lemma wf_new_Event env f st :
  wf_store st →
  wf_store (snd (new_Event env f st))
  ∧ d_id (fst (new_Event env f st)) = next_id st.
Proof.
  intros [Hnd Hlt]. split; [|done]. split; [done|]. simpl.
  eapply Forall_impl; [exact Hlt|]. intros e He. simpl in *. lia.
Qed.

(** Saving a document whose identifier was drawn and is not in use. *)
Lemma wf_save env d st :
  wf_store st → (d_id d < next_id st)%nat → d_id d ∉ _id <$> events st →
  wf_store (snd (save env d st))
  ∧ next_id (snd (save env d st)) = next_id st
  ∧ ∀ i, i ≠ d_id d → i ∉ _id <$> events st →
         i ∉ _id <$> events (snd (save env d st)).
Proof.
  intros [Hnd Hlt] Hd Hfresh. unfold save.
  destruct (validate d) as [e|] eqn:Hv; [|done].
  destruct (insert_ok env (d_id d)); [|done]. cbn [snd events next_id].
  apply validate_Some in Hv as (Hid & _).
  split; [split|split; [done|]]; cbn [events next_id].
  - rewrite fmap_app. apply NoDup_app. split; [done|]. split.
    + intros x Hx Hx'. apply list_elem_of_singleton in Hx'.
      simpl in Hx'. congruence.
    + apply NoDup_singleton.
  - apply Forall_app. split; [done|]. apply Forall_singleton. lia.
  - intros i Hne Hi. rewrite fmap_app, not_elem_of_app. split; [done|].
    simpl. rewrite list_elem_of_singleton. congruence.
Qed.

Lemma wf_createEvent env body st :
  wf_store st → wf_store (snd (createEvent env body st)).
Proof.
  intros Hwf. unfold createEvent.
  destruct (negb (findById (User env) (f_user_id body))); [done|].
  destruct (check_related env body); [done|].
  destruct (wf_new_Event env body st Hwf) as [Hwf1 Hid].
  destruct (new_Event env body st) as [d st1] eqn:Hnew. simpl in *.
  assert (next_id st1 = S (next_id st) ∧ events st1 = events st)
    as [Hn He] by (by injection Hnew as <- <-).
  destruct (wf_save env d st1 Hwf1) as [Hwf2 _].
  { rewrite Hid, Hn. lia. }
  { rewrite Hid, He. by apply wf_unused. }
  by destruct (save env d st1) as [[err|e] st2].
Qed.

Lemma wf_scheduleMeeting env body st :
  wf_store st → wf_store (snd (scheduleMeeting env body st)).
Proof.
  intros Hwf. unfold scheduleMeeting.
  destruct (negb (findById (User env) (m_advisorId body))); [done|].
  destruct (negb (findById (User env) (m_studentId body))); [done|].
  unfold new_Event. cbn [events next_id].
  match goal with
  | |- context [save env ?d ?s] => set (ds := d); set (st2 := s)
  end.
  match goal with
  | |- context [save env (mkDocument (S ?n) ?t ?f)] =>
      set (da := mkDocument (S n) t f)
  end.
  assert (wf_store st2) as Hwf2.
  { destruct Hwf as [Hnd Hlt]. split; [done|]. simpl.
    eapply Forall_impl; [exact Hlt|]. intros e He. simpl in *. lia. }
  destruct (wf_save env ds st2 Hwf2) as (Hwf3 & Hn3 & Hkeep).
  { simpl. lia. }
  { apply (wf_unused st); [done | simpl; lia]. }
  destruct (save env ds st2) as [r1 st3]. cbn [snd] in *.
  destruct (wf_save env da st3 Hwf3) as (Hwf4 & _).
  { rewrite Hn3. simpl. lia. }
  { apply Hkeep; [simpl; lia|].
    apply (wf_unused st); [done | simpl; lia]. }
  destruct (save env da st3) as [r2 st4]. cbn [snd] in *.
  by destruct r1, r2.
Qed.

Lemma wf_updateEvent env id body st :
  wf_store st → wf_store (snd (updateEvent env id body st)).
Proof.
  intros [Hnd Hlt]. unfold updateEvent.
  destruct (check_related env body); [done|].
  unfold findByIdAndUpdate.
  assert (wf_store (mkStore (update_first (has_id id)
                               (apply_update env body) (events st))
                      (next_id st))) as Hwf.
  { split; simpl.
    - by rewrite update_first_ids.
    - apply Forall_fmap with (f := _id) (P := λ i, (i < next_id st)%nat).
      rewrite update_first_ids by done. by apply Forall_fmap. }
  by destruct (apply_update env body <$> Event_findById id st).
Qed.

Lemma wf_findByIdAndDelete id st :
  wf_store st → wf_store (snd (findByIdAndDelete id st)).
Proof.
  intros [Hnd Hlt]. split; simpl.
  - by apply delete_first_NoDup.
  - rewrite Forall_forall in Hlt |- *. intros e He.
    by apply Hlt, (delete_first_elem_of (has_id id)).
Qed.

Lemma wf_deleteEvent id st :
  wf_store st → wf_store (snd (deleteEvent id st)).
Proof.
  intros Hwf. unfold deleteEvent.
  pose proof (wf_findByIdAndDelete id st Hwf) as H.
  by destruct (findByIdAndDelete id st) as [[e|] st1].
Qed.

Lemma wf_cancelMeeting id st :
  wf_store st → wf_store (snd (cancelMeeting id st)).
Proof.
  intros Hwf. unfold cancelMeeting.
  destruct (Event_findById id st) as [m|]; [|done].
  destruct (negb (type m =? "Meeting")); [done|].
  pose proof (wf_findByIdAndDelete id st Hwf) as H1.
  destruct (findByIdAndDelete id st) as [o st1]. simpl in *.
  destruct (findOne (counterpart_query m) st) as [c|]; [|done].
  by apply wf_findByIdAndDelete.
Qed.
End invariant.

(** ** More on lookup, deletion and update *)

Section collection_more.
Implicit Types (l k : list Event) (e : Event) (id : ObjectId).
Local Open Scope list_scope.

Lemma find_app_l (p : Event → bool) l k e :
  List.find p l = Some e → List.find p (l ++ k) = Some e.
Proof.
  induction l as [|x l IH]; simpl; [done|].
  destruct (p x); [done | exact IH].
Qed.

Lemma find_app_r (p : Event → bool) l k :
  List.find p l = None → List.find p (l ++ k) = List.find p k.
Proof.
  induction l as [|x l IH]; simpl; [done|].
  destruct (p x); [done | exact IH].
Qed.

Lemma find_none_forall (p : Event → bool) l :
  List.find p l = None ↔ ∀ e, e ∈ l → p e = false.
Proof.
  induction l as [|x l IH]; simpl.
  - split; [intros _ e He; by apply elem_of_nil in He | done].
  - destruct (p x) eqn:Hx.
    + split; [done|]. intros H. specialize (H x (list_elem_of_here _ _)).
      congruence.
    + rewrite IH. split.
      * intros H e He. apply elem_of_cons in He as [->|He]; auto.
      * intros H e He. apply H. by apply list_elem_of_further.
Qed.

Lemma delete_first_app_r (p : Event → bool) l k :
  List.find p l = None →
  delete_first p (l ++ k) = l ++ delete_first p k.
Proof.
  induction l as [|x l IH]; simpl; [done|].
  destruct (p x); [done|]. intros H. by rewrite IH.
Qed.

Lemma filter_all (P : Event → Prop) `{∀ e, Decision (P e)} l :
  Forall P l → filter P l = l.
Proof.
  induction 1 as [|x l Hx Hl IH]; [done|].
  rewrite filter_cons, IH. by destruct (decide (P x)).
Qed.

(** With unique identifiers, deleting by identifier is filtering it out. *)
Lemma delete_first_filter id l :
  NoDup (_id <$> l) →
  delete_first (has_id id) l = filter (λ e, _id e ≠ id) l.
Proof.
  induction l as [|x l IH]; csimpl; intros Hnd; [done|].
  apply NoDup_cons in Hnd as [Hx Hnd]. rewrite filter_cons.
  destruct (has_id id x) eqn:Hxid.
  - apply has_id_true in Hxid.
    destruct (decide (_id x ≠ id)) as [Hne|_]; [done|].
    symmetry. apply filter_all. apply Forall_forall. intros e He Heq.
    apply Hx. rewrite Hxid, <- Heq. by apply list_elem_of_fmap_2.
  - apply has_id_false in Hxid.
    destruct (decide (_id x ≠ id)) as [_|Hne]; [|done].
    by rewrite IH.
Qed.

Lemma update_first_none (p : Event → bool) f l :
  List.find p l = None → update_first p f l = l.
Proof.
  induction l as [|x l IH]; simpl; [done|].
  destruct (p x); [done|]. intros H. by rewrite IH.
Qed.

Lemma find_update_first_ne id id' f l :
  (∀ e, _id (f e) = _id e) → id ≠ id' →
  List.find (has_id id') (update_first (has_id id) f l)
  = List.find (has_id id') l.
Proof.
  intros Hf Hne. induction l as [|x l IH]; simpl; [done|].
  destruct (has_id id x) eqn:Hx; simpl.
  - apply has_id_true in Hx.
    assert (has_id id' x = false) as Hx' by (apply has_id_false; congruence).
    assert (has_id id' (f x) = false) as ->; [|by rewrite Hx'].
    apply has_id_false. rewrite Hf. congruence.
  - by rewrite IH.
Qed.

Lemma store_eta (st : Store) : mkStore (events st) (next_id st) = st.
Proof. by destruct st. Qed.
End collection_more.

(** ** Deleting, creating and updating a single event *)

(** X1. [deleteEvent] on an identifier that resolves answers 200 and removes
    that one document: the collection afterwards is the old one without it,
    in the old order, the identifier no longer resolves and every other
    identifier resolves as before. *)
Theorem deleteEvent_removes_one (st : Store) (id : ObjectId) (e : Event) :
  wf_store st →
  Event_findById id st = Some e →
  fst (deleteEvent id st) = res 200 (JMessage "Event deleted successfully")
  ∧ events (snd (deleteEvent id st)) = filter (λ x, _id x ≠ id) (events st)
  ∧ S (length (events (snd (deleteEvent id st)))) = length (events st)
  ∧ Event_findById id (snd (deleteEvent id st)) = None
  ∧ ∀ j, j ≠ id →
      Event_findById j (snd (deleteEvent id st)) = Event_findById j st.
Proof.
  intros [Hnd _] He. unfold deleteEvent, findByIdAndDelete. rewrite He.
  cbn [fst snd events]. split; [done|].
  split; [by apply delete_first_filter|].
  split; [by apply (delete_first_length _ _ e)|].
  split; [by apply find_delete_first_eq|].
  intros j Hj. by apply find_delete_first_ne.
Qed.

Lemma deleteEvent_removes_one_witness :
  fst (deleteEvent 0 pair_store)
  = res 200 (JMessage "Event deleted successfully")
  ∧ events (snd (deleteEvent 0 pair_store))
    = filter (λ x, _id x ≠ 0%nat) (events pair_store)
  ∧ S (length (events (snd (deleteEvent 0 pair_store))))
    = length (events pair_store)
  ∧ Event_findById 0 (snd (deleteEvent 0 pair_store)) = None
  ∧ ∀ j, j ≠ 0%nat →
      Event_findById j (snd (deleteEvent 0 pair_store))
      = Event_findById j pair_store.
Proof.
  apply (deleteEvent_removes_one pair_store 0 student_side pair_store_wf).
  reflexivity.
Defined.

(** X2. Deleting twice: whatever the first [deleteEvent] answered, a second
    one on the same identifier answers 404 "Event not found" and leaves the
    store as the first one left it. *)
Theorem deleteEvent_again (st : Store) (id : ObjectId) :
  wf_store st →
  deleteEvent id (snd (deleteEvent id st))
  = (res 404 (JMessage "Event not found"), snd (deleteEvent id st)).
Proof.
  intros [Hnd _].
  assert (Event_findById id (snd (deleteEvent id st)) = None) as Hgone.
  { unfold deleteEvent, findByIdAndDelete.
    destruct (Event_findById id st); by apply find_delete_first_eq. }
  unfold deleteEvent at 1. unfold findByIdAndDelete. rewrite Hgone.
  f_equal. unfold Event_findById, findOne in Hgone.
  rewrite (delete_first_none _ _ Hgone). apply store_eta.
Qed.

Lemma deleteEvent_again_witness :
  deleteEvent 1 (snd (deleteEvent 1 pair_store))
  = (res 404 (JMessage "Event not found"), snd (deleteEvent 1 pair_store)).
Proof. exact (deleteEvent_again pair_store 1 pair_store_wf). Defined.

(** X3. What [createEvent] answers with 201 can be read back: on a
    well-formed store the new document carries the identifier the store
    would hand out next, [getEventById] on it answers 200 with the same
    document, and every document that could be read before is read
    unchanged. *)
Theorem createEvent_then_get (env : Env) (body : Fields) (st st' : Store)
    (e : Event) :
  wf_store st →
  createEvent env body st = (res 201 (JEvent e), st') →
  _id e = next_id st
  ∧ getEventById (_id e) st' = res 200 (JEvent e)
  ∧ ∀ j e0, Event_findById j st = Some e0 →
      getEventById j st' = res 200 (JEvent e0).
Proof.
  intros Hwf Hc. apply createEvent_created in Hc as (_ & Hv & ->).
  apply validate_Some in Hv as (Hid & _). simpl in Hid.
  split; [done|]. unfold getEventById, Event_findById, findOne. simpl. split.
  - rewrite find_app_r.
    + simpl. by rewrite (proj2 (has_id_true (_id e) e) eq_refl).
    + apply find_has_id_None. rewrite Hid. by apply wf_unused.
  - intros j e0 He0. by rewrite (find_app_l _ _ _ e0).
Qed.

Lemma createEvent_then_get_witness :
  ∃ e st', createEvent demo_env subject_reminder pair_store
           = (res 201 (JEvent e), st')
           ∧ _id e = next_id pair_store
           ∧ getEventById (_id e) st' = res 200 (JEvent e)
           ∧ ∀ j e0, Event_findById j pair_store = Some e0 →
               getEventById j st' = res 200 (JEvent e0).
Proof.
  eexists _, _. split; [reflexivity|].
  apply (createEvent_then_get demo_env subject_reminder pair_store);
    [exact pair_store_wf | reflexivity].
Defined.

(** X4. [createEvent] is all or nothing: a call that does not answer 201
    leaves the collection as it was, and a call that answers 400 or 404
    does not even draw an identifier. *)
Theorem createEvent_all_or_nothing (env : Env) (body : Fields) (st : Store) :
  status (fst (createEvent env body st)) ≠ 201%nat →
  events (snd (createEvent env body st)) = events st
  ∧ (status (fst (createEvent env body st)) ≠ 500%nat →
     snd (createEvent env body st) = st).
Proof.
  unfold createEvent.
  destruct (negb (findById (User env) (f_user_id body))); [done|].
  destruct (check_related env body); [done|].
  unfold new_Event, save.
  destruct (validate _) as [e|]; [|done]. cbn [d_id].
  by destruct (insert_ok env (next_id st)).
Qed.

Lemma createEvent_all_or_nothing_witness :
  events (snd (createEvent flaky_env subject_reminder pair_store))
  = events pair_store
  ∧ (status (fst (createEvent flaky_env subject_reminder pair_store))
     ≠ 500%nat →
     snd (createEvent flaky_env subject_reminder pair_store) = pair_store).
Proof.
  apply (createEvent_all_or_nothing flaky_env subject_reminder pair_store).
  discriminate.
Defined.

(** X5. An [updateEvent] that does not answer 200, because the reference
    check rejects the body or because no document has the identifier,
    leaves the store untouched. *)
Theorem updateEvent_failure_unchanged (env : Env) (id : ObjectId)
    (body : Fields) (st : Store) :
  status (fst (updateEvent env id body st)) ≠ 200%nat →
  snd (updateEvent env id body st) = st.
Proof.
  unfold updateEvent. destruct (check_related env body); [done|].
  unfold findByIdAndUpdate.
  destruct (Event_findById id st) as [e|] eqn:He; simpl; [done|].
  intros _. unfold Event_findById, findOne in He.
  rewrite (update_first_none _ _ _ He). apply store_eta.
Qed.

Lemma updateEvent_failure_unchanged_witness :
  snd (updateEvent demo_env 7 moved_body pair_store) = pair_store
  ∧ snd (updateEvent demo_env 0 dangling_reminder pair_store) = pair_store.
Proof.
  split.
  - apply (updateEvent_failure_unchanged demo_env 7 moved_body pair_store).
    discriminate.
  - apply (updateEvent_failure_unchanged demo_env 0 dangling_reminder
             pair_store).
    discriminate.
Defined.

(** X6. [updateEvent] touches at most the document under [id]: the
    collection keeps its length and its identifiers in their order, and
    every other identifier resolves to the document it resolved to
    before. *)
Theorem updateEvent_frame (env : Env) (id : ObjectId) (body : Fields)
    (st : Store) :
  length (events (snd (updateEvent env id body st))) = length (events st)
  ∧ _id <$> events (snd (updateEvent env id body st)) = _id <$> events st
  ∧ next_id (snd (updateEvent env id body st)) = next_id st
  ∧ ∀ j, j ≠ id →
      Event_findById j (snd (updateEvent env id body st))
      = Event_findById j st.
Proof.
  unfold updateEvent. destruct (check_related env body); [done|].
  unfold findByIdAndUpdate.
  assert (length (update_first (has_id id) (apply_update env body)
                    (events st)) = length (events st)
          ∧ _id <$> update_first (has_id id) (apply_update env body)
                      (events st) = _id <$> events st
          ∧ ∀ j, j ≠ id →
              List.find (has_id j)
                (update_first (has_id id) (apply_update env body) (events st))
              = List.find (has_id j) (events st)) as H.
  { split; [apply update_first_length|].
    split; [by apply update_first_ids|].
    intros j Hj. by apply find_update_first_ne. }
  destruct H as (Hlen & Hids & Hother).
  by destruct (apply_update env body <$> Event_findById id st).
Qed.

(** X7. The enumeration of [type] is enforced when an event is created and
    not when it is updated: for a type outside the enumeration and a body
    without a reference, [updateEvent] answers 200 and the stored document
    carries that type, while [createEvent] with the same body stores
    nothing. *)
Theorem type_enum_on_create_only (env : Env) (id : ObjectId) (body : Fields)
    (st : Store) (e : Event) (t : string) :
  Event_findById id st = Some e →
  f_type body = Some t →
  t ∉ type_enum →
  f_related_id body = None →
  (∃ e', fst (updateEvent env id body st) = res 200 (JEvent e')
         ∧ Event_findById id (snd (updateEvent env id body st)) = Some e'
         ∧ type e' = t)
  ∧ status (fst (createEvent env body st)) ≠ 201%nat
  ∧ events (snd (createEvent env body st)) = events st.
Proof.
  intros He Ht Hout Hrel. split.
  - unfold updateEvent, check_related. rewrite Hrel. cbn [truthy_id andb].
    unfold findByIdAndUpdate. rewrite He. simpl.
    exists (apply_update env body e). split; [done|]. split.
    + unfold Event_findById, findOne in *. simpl.
      rewrite find_update_first by done. by rewrite He.
    + simpl. by rewrite Ht.
  - assert (validate (mkDocument (next_id st) (now env) body) = None) as Hv.
    { destruct (validate _) as [e0|] eqn:Hv; [|done].
      apply validate_Some in Hv as (_ & _ & _ & Hty & Hin & _).
      simpl in Hty. rewrite Ht in Hty. injection Hty as ->. done. }
    unfold createEvent.
    destruct (negb (findById (User env) (f_user_id body))); [done|].
    unfold check_related. rewrite Hrel. cbn [truthy_id andb].
    unfold new_Event, save. by rewrite Hv.
Qed.

Lemma type_enum_on_create_only_witness :
  (∃ e', fst (updateEvent demo_env 0 party_body pair_store)
         = res 200 (JEvent e')
         ∧ Event_findById 0 (snd (updateEvent demo_env 0 party_body
                                    pair_store)) = Some e'
         ∧ type e' = "Party")
  ∧ status (fst (createEvent demo_env party_body pair_store)) ≠ 201%nat
  ∧ events (snd (createEvent demo_env party_body pair_store))
    = events pair_store.
Proof.
  apply (type_enum_on_create_only demo_env 0 party_body pair_store
           student_side "Party"); try reflexivity.
  intros Hin. apply mem_string_elem_of in Hin. discriminate Hin.
Defined.

(** X8. A Meeting whose type has been changed by [updateEvent] is out of
    reach of [cancelMeeting]: the call answers 404 "Meeting not found" and
    removes nothing. *)
Theorem retyped_meeting_not_cancellable (env : Env) (id : ObjectId)
    (body : Fields) (st : Store) (e : Event) (t : string) :
  Event_findById id st = Some e →
  f_type body = Some t →
  t ≠ "Meeting" →
  f_related_id body = None →
  cancelMeeting id (snd (updateEvent env id body st))
  = (meeting_not_found, snd (updateEvent env id body st)).
Proof.
  intros He Ht Hne Hrel. apply cancelMeeting_absent. unfold not_a_meeting.
  unfold updateEvent, check_related. rewrite Hrel. cbn [truthy_id andb].
  unfold findByIdAndUpdate. rewrite He. simpl.
  unfold Event_findById, findOne in *. simpl.
  rewrite find_update_first by done. rewrite He. simpl. by rewrite Ht.
Qed.

Lemma retyped_meeting_not_cancellable_witness :
  cancelMeeting 0 (snd (updateEvent demo_env 0 party_body pair_store))
  = (meeting_not_found, snd (updateEvent demo_env 0 party_body pair_store)).
Proof.
  apply (retyped_meeting_not_cancellable demo_env 0 party_body pair_store
           student_side "Party"); try reflexivity.
  discriminate.
Defined.

(** ** Scheduling and cancelling together *)

Section meeting_pair.
Local Open Scope list_scope.

Lemma eqb_option_string_refl o : eqb_option_string o o = true.
Proof. destruct o as [x|]; simpl; [apply String.eqb_refl | done]. Qed.

(** The two sides of a meeting answer each other's counterpart query. *)
Lemma counterpart_query_sides env body i j n d a s :
  counterpart_query (meeting_side env body i n d s a)
    (meeting_side env body j n d a s) = true.
Proof.
  unfold counterpart_query, meeting_side. simpl.
  by rewrite Z.eqb_refl, eqb_option_string_refl, !Nat.eqb_refl.
Qed.

(** A side is its own counterpart only when the two participants are one
    user. *)
Lemma counterpart_query_self env body i n d a s :
  a ≠ s →
  counterpart_query (meeting_side env body i n d s a)
    (meeting_side env body i n d s a) = false.
Proof.
  intros Hne. unfold counterpart_query, meeting_side. simpl.
  apply Nat.eqb_neq in Hne. rewrite Hne. by rewrite !andb_false_r.
Qed.

(** The run of [scheduleMeeting] on a request it accepts. *)
Lemma scheduleMeeting_runs env body st a s n d :
  m_advisorId body = Some a → m_studentId body = Some s →
  User env a = true → User env s = true →
  m_name body = Some n → n ≠ "" → m_date body = Some d →
  insert_ok env (next_id st) = true →
  insert_ok env (S (next_id st)) = true →
  scheduleMeeting env body st
  = (res 201 (JMeeting (meeting_side env body (next_id st) n d s a)
                (meeting_side env body (S (next_id st)) n d a s)),
     mkStore (events st ++ [meeting_side env body (next_id st) n d s a;
                            meeting_side env body (S (next_id st)) n d a s])
       (S (S (next_id st)))).
Proof.
  intros Ha Hs Hua Hus Hn Hne Hd Hi1 Hi2.
  unfold scheduleMeeting, new_Event, save, validate. simpl.
  rewrite Ha, Hs, Hn, Hd. simpl. rewrite Hua, Hus. simpl.
  apply String.eqb_neq in Hne. rewrite Hne. simpl.
  rewrite Hi1, Hi2. simpl. by rewrite <- app_assoc.
Qed.

Lemma find_fresh_id st i :
  wf_store st → (next_id st ≤ i)%nat →
  List.find (has_id i) (events st) = None.
Proof. intros Hwf Hi. by apply find_has_id_None, wf_unused. Qed.

(** X9. Scheduling and then cancelling gives the collection back. Let the
    store be well formed and hold no document that would answer the
    counterpart query of either side of the new meeting, and let advisor
    and student be two different users. After a [scheduleMeeting] that
    succeeds, [cancelMeeting] on the student side, and just as well on the
    advisor side, answers [canceledEvents = 2] and leaves exactly the
    documents that were there before the meeting was scheduled. *)
Theorem schedule_then_cancel (env : Env) (body : MeetingBody) (st : Store)
    (a s : ObjectId) (n : string) (d : Z) :
  wf_store st →
  a ≠ s →
  m_advisorId body = Some a →
  m_studentId body = Some s →
  User env a = true →
  User env s = true →
  m_name body = Some n →
  n ≠ "" →
  m_date body = Some d →
  insert_ok env (next_id st) = true →
  insert_ok env (S (next_id st)) = true →
  (∀ e, e ∈ events st →
        counterpart_query (meeting_side env body (next_id st) n d s a) e
        = false) →
  (∀ e, e ∈ events st →
        counterpart_query (meeting_side env body (S (next_id st)) n d a s) e
        = false) →
  let st1 := snd (scheduleMeeting env body st) in
  let canceled :=
    (res 200 (JCanceled "Meeting canceled successfully" 2),
     mkStore (events st) (S (S (next_id st)))) in
  cancelMeeting (next_id st) st1 = canceled
  ∧ cancelMeeting (S (next_id st)) st1 = canceled.
Proof.
  intros Hwf Hne Ha Hs Hua Hus Hn Hnn Hd Hi1 Hi2 Hold1 Hold2.
  rewrite (scheduleMeeting_runs env body st a s n d) by done.
  cbn [snd].
  assert (List.find (has_id (next_id st)) (events st) = None) as Hf1
    by by apply find_fresh_id.
  assert (List.find (has_id (S (next_id st))) (events st) = None) as Hf2
    by (apply find_fresh_id; [done | lia]).
  apply find_none_forall in Hold1, Hold2.
  assert (∀ i o r, has_id i (meeting_side env body i n d o r) = true) as Hid
    by (intros; apply Nat.eqb_refl).
  assert (∀ o r, has_id (S (next_id st))
                   (meeting_side env body (next_id st) n d o r) = false)
    as Hid1 by (intros; apply Nat.eqb_neq; simpl; lia).
  assert (∀ o r, has_id (next_id st)
                   (meeting_side env body (S (next_id st)) n d o r) = false)
    as Hid2 by (intros; apply Nat.eqb_neq; simpl; lia).
  assert (∀ i o r, negb (type (meeting_side env body i n d o r) =? "Meeting")
                   = false) as Hty by done.
  assert (∀ i o r, _id (meeting_side env body i n d o r) = i) as Hi by done.
  split.
  - unfold cancelMeeting, Event_findById, findByIdAndDelete, findOne.
    cbn [events next_id snd].
    rewrite (find_app_r _ _ _ Hf1). cbn [List.find]. rewrite Hid, Hty.
    rewrite (find_app_r _ _ _ Hold1). cbn [List.find].
    rewrite (counterpart_query_self env body (next_id st) n d a s Hne).
    rewrite counterpart_query_sides.
    rewrite (delete_first_app_r _ _ _ Hf1). cbn [delete_first].
    rewrite Hid, Hi.
    rewrite (delete_first_app_r _ _ _ Hf2). cbn [delete_first].
    rewrite Hid. by rewrite app_nil_r.
  - unfold cancelMeeting, Event_findById, findByIdAndDelete, findOne.
    cbn [events next_id snd].
    rewrite (find_app_r _ _ _ Hf2). cbn [List.find].
    rewrite Hid1, Hid, Hty.
    rewrite (find_app_r _ _ _ Hold2). cbn [List.find].
    rewrite counterpart_query_sides.
    rewrite (delete_first_app_r _ _ _ Hf2). cbn [delete_first].
    rewrite Hid1, Hid, Hi.
    rewrite (delete_first_app_r _ _ _ Hf1). cbn [delete_first].
    rewrite Hid. by rewrite app_nil_r.
Qed.
End meeting_pair.

Lemma calendar_store_wf : wf_store calendar_store.
Proof.
  split.
  - vm_compute. apply (bool_decide_unpack (NoDup [0; 1; 2; 3; 4; 5]%nat)).
    exact I.
  - vm_compute. repeat constructor.
Defined.

Lemma schedule_then_cancel_witness :
  cancelMeeting 6 (snd (scheduleMeeting demo_env (advising 1 2)
                          calendar_store))
  = (res 200 (JCanceled "Meeting canceled successfully" 2),
     mkStore (events calendar_store) 8)
  ∧ cancelMeeting 7 (snd (scheduleMeeting demo_env (advising 1 2)
                            calendar_store))
    = (res 200 (JCanceled "Meeting canceled successfully" 2),
       mkStore (events calendar_store) 8).
Proof.
  apply (schedule_then_cancel demo_env (advising 1 2) calendar_store 1 2
           "Advising" 2000 calendar_store_wf); try reflexivity;
    try discriminate.
  - apply (proj1 (find_none_forall _ _)). reflexivity.
  - apply (proj1 (find_none_forall _ _)). reflexivity.
Defined.

(** ** What a cancellation leaves in place *)

Lemma same_id_same_event (l : list Event) (e e' : Event) :
  NoDup (_id <$> l) → e ∈ l → e' ∈ l → _id e = _id e' → e = e'.
Proof.
  intros Hnd He He' Heq.
  pose proof (find_has_id_unique (_id e) l e Hnd He eq_refl) as H1.
  pose proof (find_has_id_unique (_id e) l e' Hnd He' (eq_sym Heq)) as H2.
  congruence.
Qed.

Lemma counterpart_query_type m e :
  counterpart_query m e = true → type e = "Meeting".
Proof.
  unfold counterpart_query. rewrite !andb_true_iff.
  intros [[[[Hty _] _] _] _]. by apply String.eqb_eq.
Qed.

(** X10. [cancelMeeting] removes Meeting documents only, and at most two of
    them: on a well-formed store the collection afterwards is the old one
    with some documents left out, at most two, and every document whose
    type is not Meeting is still there. *)
Theorem cancelMeeting_keeps_the_rest (st : Store) (id : ObjectId) :
  wf_store st →
  events (snd (cancelMeeting id st)) `sublist_of` events st
  ∧ (length (events st) ≤ length (events (snd (cancelMeeting id st))) + 2)%nat
  ∧ ∀ e, e ∈ events st → type e ≠ "Meeting" →
         e ∈ events (snd (cancelMeeting id st)).
Proof.
  intros [Hnd _]. unfold cancelMeeting.
  destruct (Event_findById id st) as [m|] eqn:Hm;
    [|split; [done | split; [simpl; lia | done]]].
  destruct (type m =? "Meeting") eqn:Hty;
    [|split; [done | split; [simpl; lia | done]]].
  apply String.eqb_eq in Hty. cbn [negb].
  pose proof (find_has_id_Some _ _ _ Hm) as [Hmin Hmid].
  unfold findByIdAndDelete. cbn [snd events next_id].
  rewrite (delete_first_filter id _ Hnd).
  pose proof (delete_first_length _ _ _ Hm) as Hlen.
  rewrite (delete_first_filter id _ Hnd) in Hlen.
  destruct (findOne (counterpart_query m) st) as [c|] eqn:Hc;
    cbn [snd events].
  - apply List.find_some in Hc as [Hcin Hq]. apply list_elem_of_In in Hcin.
    apply counterpart_query_type in Hq.
    assert (NoDup (_id <$> filter (λ e, _id e ≠ id) (events st))) as Hnd'.
    { rewrite <- (delete_first_filter id _ Hnd).
      by apply delete_first_NoDup. }
    rewrite (delete_first_filter (_id c) _ Hnd').
    split; [|split].
    + etrans; apply sublist_filter.
    + pose proof (delete_first_sublist (has_id (_id c))
                    (filter (λ e, _id e ≠ id) (events st))) as Hsub.
      rewrite (delete_first_filter (_id c) _ Hnd') in Hsub.
      destruct (List.find (has_id (_id c))
                  (filter (λ e, _id e ≠ id) (events st))) as [c'|] eqn:Hc'.
      * apply delete_first_length in Hc'.
        rewrite (delete_first_filter (_id c) _ Hnd') in Hc'. lia.
      * apply delete_first_none in Hc'.
        rewrite (delete_first_filter (_id c) _ Hnd') in Hc'.
        rewrite Hc'. lia.
    + intros e He Hnm. rewrite !list_elem_of_filter.
      split; [|split; [|done]].
      * intros Heq. apply Hnm.
        by rewrite (same_id_same_event _ e c Hnd He Hcin Heq).
      * intros Heq. apply Hnm.
        rewrite (same_id_same_event _ e m Hnd He Hmin); [done|].
        by rewrite Hmid.
  - split; [apply sublist_filter|]. split; [lia|].
    intros e He Hnm. rewrite list_elem_of_filter. split; [|done].
    intros Heq. apply Hnm.
    rewrite (same_id_same_event _ e m Hnd He Hmin); [done|].
    by rewrite Hmid.
Qed.

Lemma cancelMeeting_keeps_the_rest_witness :
  let st := snd (scheduleMeeting demo_env (advising 1 2) calendar_store) in
  events (snd (cancelMeeting 6 st)) `sublist_of` events st
  ∧ (length (events st) ≤ length (events (snd (cancelMeeting 6 st))) + 2)%nat
  ∧ ∀ e, e ∈ events st → type e ≠ "Meeting" →
         e ∈ events (snd (cancelMeeting 6 st)).
Proof.
  apply (cancelMeeting_keeps_the_rest
           (snd (scheduleMeeting demo_env (advising 1 2) calendar_store)) 6).
  split.
  - vm_compute.
    apply (bool_decide_unpack (NoDup [0; 1; 2; 3; 4; 5; 6; 7]%nat)).
    exact I.
  - vm_compute. repeat constructor.
Defined.

(** ** An edited side loses its counterpart *)

Section desynchronised.
Local Open Scope list_scope.

Lemma update_first_app_r (p : Event → bool) f (l k : list Event) :
  List.find p l = None →
  update_first p f (l ++ k) = l ++ update_first p f k.
Proof.
  induction l as [|x l IH]; simpl; [done|].
  destruct (p x); [done|]. intros H. by rewrite IH.
Qed.

Lemma counterpart_query_other_date m e :
  date e ≠ date m → counterpart_query m e = false.
Proof.
  intros Hd. unfold counterpart_query. apply Z.eqb_neq in Hd.
  rewrite Hd. by rewrite andb_false_r.
Qed.

(** X11. The pairing is not kept up by [updateEvent]. After a meeting has
    been scheduled as in X9, let the advisor side be moved to another date
    by an update without a reference. Cancelling the student side then finds
    no counterpart: it answers [canceledEvents = 1], removes the student
    side alone and leaves the moved advisor side in the collection. *)
Theorem edited_side_is_left_behind (env env' : Env) (body : MeetingBody)
    (change : Fields) (st : Store) (a s : ObjectId) (n : string) (d d' : Z) :
  wf_store st →
  a ≠ s →
  m_advisorId body = Some a →
  m_studentId body = Some s →
  User env a = true →
  User env s = true →
  m_name body = Some n →
  n ≠ "" →
  m_date body = Some d →
  insert_ok env (next_id st) = true →
  insert_ok env (S (next_id st)) = true →
  (∀ e, e ∈ events st →
        counterpart_query (meeting_side env body (next_id st) n d s a) e
        = false) →
  f_date change = Some d' →
  d' ≠ d →
  f_related_id change = None →
  let st1 := snd (scheduleMeeting env body st) in
  let st2 := snd (updateEvent env' (S (next_id st)) change st1) in
  cancelMeeting (next_id st) st2
  = (res 200 (JCanceled "Meeting canceled successfully" 1),
     mkStore
       (events st
        ++ [apply_update env' change
              (meeting_side env body (S (next_id st)) n d a s)])
       (S (S (next_id st)))).
Proof.
  intros Hwf Hne Ha Hs Hua Hus Hn Hnn Hd Hi1 Hi2 Hold Hdate Hdd Hrel.
  rewrite (scheduleMeeting_runs env body st a s n d) by done.
  cbn [snd].
  assert (List.find (has_id (next_id st)) (events st) = None) as Hf1
    by by apply find_fresh_id.
  assert (List.find (has_id (S (next_id st))) (events st) = None) as Hf2
    by (apply find_fresh_id; [done | lia]).
  apply find_none_forall in Hold.
  assert (∀ i o r, has_id i (meeting_side env body i n d o r) = true) as Hid
    by (intros; apply Nat.eqb_refl).
  assert (∀ o r, has_id (S (next_id st))
                   (meeting_side env body (next_id st) n d o r) = false)
    as Hid1 by (intros; apply Nat.eqb_neq; simpl; lia).
  assert (∀ e, has_id (next_id st) (apply_update env' change e)
               = has_id (next_id st) e) as Hupd by done.
  assert (∀ o r, has_id (next_id st)
                   (meeting_side env body (S (next_id st)) n d o r) = false)
    as Hid2 by (intros; apply Nat.eqb_neq; simpl; lia).
  assert (∀ i o r, negb (type (meeting_side env body i n d o r) =? "Meeting")
                   = false) as Hty by done.
  unfold updateEvent, check_related. rewrite Hrel. cbn [truthy_id andb].
  unfold findByIdAndUpdate, Event_findById, findOne. cbn [events next_id].
  rewrite (find_app_r _ _ _ Hf2). cbn [List.find]. rewrite Hid1, Hid.
  cbn [fmap option_fmap option_map snd events next_id].
  rewrite (update_first_app_r _ _ _ _ Hf2). cbn [update_first].
  rewrite Hid1, Hid.
  unfold cancelMeeting, Event_findById, findByIdAndDelete, findOne.
  cbn [events next_id snd].
  rewrite (find_app_r _ _ _ Hf1). cbn [List.find]. rewrite Hid, Hty.
  rewrite (find_app_r _ _ _ Hold). cbn [List.find].
  rewrite (counterpart_query_self env body (next_id st) n d a s Hne).
  rewrite counterpart_query_other_date
    by (simpl; rewrite Hdate; simpl; done).
  rewrite (delete_first_app_r _ _ _ Hf1). cbn [delete_first].
  by rewrite Hid.
Qed.

Lemma edited_side_is_left_behind_witness :
  cancelMeeting 6
    (snd (updateEvent demo_env 7 moved_body
            (snd (scheduleMeeting demo_env (advising 1 2) calendar_store))))
  = (res 200 (JCanceled "Meeting canceled successfully" 1),
     mkStore
       (events calendar_store
        ++ [apply_update demo_env moved_body
              (meeting_side demo_env (advising 1 2) 7 "Advising" 2000 1 2)])
       8).
Proof.
  apply (edited_side_is_left_behind demo_env demo_env (advising 1 2)
           moved_body calendar_store 1 2 "Advising" 2000 3000
           calendar_store_wf); try reflexivity; try discriminate.
  apply (proj1 (find_none_forall _ _)). reflexivity.
Defined.
End desynchronised.

(** ** Past and upcoming events together *)

Lemma filter_split {A} (P Q R : A → Prop) `{∀ x, Decision (P x)}
    `{∀ x, Decision (Q x)} `{∀ x, Decision (R x)} (l : list A) :
  (∀ x, P x ↔ R x ∧ ¬ Q x) → (∀ x, Q x → R x) →
  (filter Q l ++ filter P l)%list ≡ₚ filter R l.
Proof.
  intros HP HQ. induction l as [|x l IH]; [done|].
  rewrite !filter_cons.
  destruct (decide (Q x)) as [Hq|Hq], (decide (P x)) as [Hp|Hp],
    (decide (R x)) as [Hr|Hr]; simpl.
  - apply HP in Hp as [_ Hnq]. done.
  - apply HP in Hp as [_ Hnq]. done.
  - by rewrite IH.
  - destruct Hr. by apply HQ.
  - rewrite <- IH. by rewrite Permutation_middle.
  - apply HP in Hp as [Hr' _]. done.
  - destruct Hp. by apply HP.
  - done.
Qed.

(** X12. Without a type filter, the past and the upcoming listing of an
    existing user divide that user's events between them: taken together
    they hold every event of the user exactly as often as it is stored,
    the past listing only events dated before the clock and the upcoming
    listing only events dated at the clock or later. *)
Theorem getUserEvents_past_and_upcoming (env : Env) (userId : ObjectId)
    (st : Store) :
  User env userId = true →
  ∃ past upcoming,
    getUserEvents env userId (mkQuery None (Some "true")) st
    = res 200 (JEvents past)
    ∧ getUserEvents env userId (mkQuery None None) st
      = res 200 (JEvents upcoming)
    ∧ (past ++ upcoming)%list ≡ₚ filter (λ e, user_id e = userId) (events st)
    ∧ Forall (λ e, (date e < now env)%Z) past
    ∧ Forall (λ e, (now env ≤ date e)%Z) upcoming.
Proof.
  intros Hu. unfold getUserEvents. simpl. rewrite Hu. simpl.
  eexists _, _. split; [done|]. split; [done|].
  set (qp := mkQuery None (Some "true")). set (qu := mkQuery None None).
  rewrite (filter_bool_Prop _ (listed env userId qp))
    by apply user_events_query_listed.
  rewrite (filter_bool_Prop _ (listed env userId qu))
    by apply user_events_query_listed.
  split; [|split].
  - rewrite !merge_sort_Permutation.
    apply (filter_split (listed env userId qu) (listed env userId qp)
             (λ e, user_id e = userId)).
    + intros e. unfold listed. simpl. split.
      * intros (Ho & _ & Hd). split; [done|]. intros (_ & _ & Hd'). lia.
      * intros [Ho Hn]. split; [done|]. split; [done|].
        destruct (decide (date e < now env)%Z) as [Hlt|]; [|lia].
        destruct Hn. done.
    + intros e (Ho & _). done.
  - rewrite merge_sort_Permutation. apply Forall_forall. intros e He.
    apply list_elem_of_filter in He as [(_ & _ & Hd) _]. exact Hd.
  - rewrite merge_sort_Permutation. apply Forall_forall. intros e He.
    apply list_elem_of_filter in He as [(_ & _ & Hd) _]. exact Hd.
Qed.

Lemma getUserEvents_past_and_upcoming_witness :
  ∃ past upcoming,
    getUserEvents demo_env 1 (mkQuery None (Some "true")) calendar_store
    = res 200 (JEvents past)
    ∧ getUserEvents demo_env 1 (mkQuery None None) calendar_store
      = res 200 (JEvents upcoming)
    ∧ (past ++ upcoming)%list
      ≡ₚ filter (λ e, user_id e = 1%nat) (events calendar_store)
    ∧ Forall (λ e, (date e < now demo_env)%Z) past
    ∧ Forall (λ e, (now demo_env ≤ date e)%Z) upcoming.
Proof.
  apply (getUserEvents_past_and_upcoming demo_env 1 calendar_store).
  reflexivity.
Defined.

(** ** The event router *)

Section event_router.
Context (env : Env) (q : UserEventsQuery) (b : Body) (st : Store).

(** X13. Every endpoint of the event routes reaches its own handler, in
    spite of the order of registration: [POST /api/events/meetings] is
    answered by [scheduleMeeting] although [/api/events/:id], registered
    before it, matches the path, since that route has no handler for POST;
    the paths under [user] and [meetings] that carry an identifier are one
    segment longer than [/api/events/:id] and are not caught by it. *)
Theorem eventRouter_endpoints (id : ObjectId) :
  eventRouter env (request POST api_events q b) st
  = (let '(r, st') := createEvent env (body_fields b) st in (Sent r, st'))
  ∧ eventRouter env (request GET api_events q b) st
    = (Sent (getAllEvents st), st)
  ∧ eventRouter env (request GET (api_events ++ [Oid id]) q b) st
    = (Sent (getEventById id st), st)
  ∧ eventRouter env (request PUT (api_events ++ [Oid id]) q b) st
    = (let '(r, st') := updateEvent env id (body_fields b) st in
       (Sent r, st'))
  ∧ eventRouter env (request DELETE (api_events ++ [Oid id]) q b) st
    = (let '(r, st') := deleteEvent id st in (Sent r, st'))
  ∧ eventRouter env (request GET (api_events ++ [Word "user"; Oid id]) q b)
      st
    = (Sent (getUserEvents env id q st), st)
  ∧ eventRouter env (request POST (api_events ++ [Word "meetings"]) q b) st
    = (let '(r, st') := scheduleMeeting env (body_meeting b) st in
       (Sent r, st'))
  ∧ eventRouter env
      (request DELETE (api_events ++ [Word "meetings"; Oid id]) q b) st
    = (let '(r, st') := cancelMeeting id st in (Sent r, st')).
Proof. repeat split; reflexivity. Qed.
End event_router.

(** A parameter named by the pattern is bound by a match. *)
Lemma match_path_binds pattern path params name :
  match_path pattern path = Some params →
  Param name ∈ pattern →
  is_Some (param name params).
Proof.
  revert path params.
  induction pattern as [|[w|k] pattern IH]; intros path params Hm Hin.
  - by apply elem_of_nil in Hin.
  - apply elem_of_cons in Hin as [?|Hin]; [done|].
    destruct path as [|[x|i] path]; simpl in Hm; try done.
    destruct (x =? w); [|done]. by apply (IH path).
  - destruct path as [|seg path]; simpl in Hm; [done|].
    destruct (match_path pattern path) as [ps|] eqn:Hps; [|done].
    injection Hm as <-. simpl.
    destruct (k =? name) eqn:Hk; [by eexists|].
    apply elem_of_cons in Hin as [Heq|Hin].
    + injection Heq as ->. by rewrite String.eqb_refl in Hk.
    + by apply (IH path).
Qed.

(** The route that answers is one of the table, for the method of the
    request, and its pattern matches the path. *)
Lemma resolve_Some {H} (routes : list (Method * list PatSeg * H)) m path h
    params :
  resolve routes m path = Some (h, params) →
  ∃ pattern, (m, pattern, h) ∈ routes
             ∧ match_path pattern path = Some params.
Proof.
  induction routes as [|[[m' pattern] h'] routes IH]; simpl; [done|].
  destruct (bool_decide (m' = m)) eqn:Hm.
  - apply bool_decide_eq_true in Hm as ->.
    destruct (match_path pattern path) as [ps|] eqn:Hps.
    + intros [= <- <-]. exists pattern. split; [left | done].
    + intros Hr. destruct (IH Hr) as (p & Hin & Hp).
      exists p. split; [by right | done].
  - intros Hr. destruct (IH Hr) as (p & Hin & Hp).
    exists p. split; [by right | done].
Qed.

Lemma resolve_eventRoutes_bound m path h params :
  resolve eventRoutes m path = Some (h, params) →
  match h with
  | H_getEventById | H_updateEvent | H_deleteEvent | H_cancelMeeting =>
      is_Some (param "id" params)
  | H_getUserEvents => is_Some (param "userId" params)
  | _ => True
  end.
Proof.
  intros Hr. apply resolve_Some in Hr as (pattern & Hin & Hm).
  unfold eventRoutes in Hin.
  repeat (apply elem_of_cons in Hin as [[= -> -> ->]|Hin]);
    try done;
    try (apply (match_path_binds _ _ _ _ Hm);
         repeat (first [by left | right])).
  by apply elem_of_nil in Hin.
Qed.

(** X14. Well-formedness is an invariant of the event router: whatever the
    request, a well-formed store is left well formed, identifiers unique
    and below the counter; and the outcome is never left undetermined,
    since every handler finds the parameter it reads bound by its route. *)
Theorem eventRouter_keeps_wf (env : Env) (req : Request) (st : Store) :
  wf_store st →
  wf_store (snd (eventRouter env req st))
  ∧ fst (eventRouter env req st) ≠ Undetermined.
Proof.
  intros Hwf. unfold eventRouter.
  destruct (resolve eventRoutes (r_method req) (r_path req))
    as [[h params]|] eqn:Hr; [|done].
  destruct (r_signed_in req); [|done].
  apply resolve_eventRoutes_bound in Hr.
  destruct h; cbn [run_event_handler].
  - pose proof (wf_createEvent env (body_fields (r_body req)) st Hwf).
    by destruct (createEvent env _ st).
  - done.
  - destruct Hr as [[w|i] ->]; done.
  - destruct Hr as [[w|i] ->].
    + by destruct (check_related env _).
    + pose proof (wf_updateEvent env i (body_fields (r_body req)) st Hwf).
      by destruct (updateEvent env i _ st).
  - destruct Hr as [[w|i] ->]; [done|].
    pose proof (wf_deleteEvent i st Hwf). by destruct (deleteEvent i st).
  - pose proof (wf_scheduleMeeting env (body_meeting (r_body req)) st Hwf).
    by destruct (scheduleMeeting env _ st).
  - destruct Hr as [[w|i] ->]; done.
  - destruct Hr as [[w|i] ->]; [done|].
    pose proof (wf_cancelMeeting i st Hwf). by destruct (cancelMeeting i st).
Qed.

Lemma eventRouter_keeps_wf_witness :
  let req := request DELETE [Word "api"; Word "events"; Word "meetings";
                             Oid 0]
               (mkQuery None None)
               (mkBody None None None None None None None None None None
                  None) in
  wf_store (snd (eventRouter demo_env req pair_store))
  ∧ fst (eventRouter demo_env req pair_store) ≠ Undetermined.
Proof. apply eventRouter_keeps_wf. exact pair_store_wf. Defined.

(** X15. Reading does not write: a GET request, and just as well a request
    that is not signed in, leaves the store exactly as it was, whatever its
    path and whatever the router answers. *)
Theorem eventRouter_get_is_safe (env : Env) (req : Request) (st : Store) :
  r_method req = GET ∨ r_signed_in req = false →
  snd (eventRouter env req st) = st.
Proof.
  intros Hsafe. unfold eventRouter.
  destruct (resolve eventRoutes (r_method req) (r_path req))
    as [[h params]|] eqn:Hr; [|done].
  destruct (r_signed_in req) eqn:Hs; [|done].
  destruct Hsafe as [Hget|?]; [|done]. rewrite Hget in Hr.
  assert (h = H_getAllEvents ∨ h = H_getEventById ∨ h = H_getUserEvents)
    as Hh.
  { revert Hr. unfold eventRoutes. cbn [resolve].
    repeat (rewrite bool_decide_eq_false_2 by done).
    repeat (rewrite bool_decide_eq_true_2 by done).
    repeat match goal with
           | |- context [match_path ?p (r_path req)] =>
               destruct (match_path p (r_path req))
           end; intros [= <- _]; auto. }
  destruct Hh as [->|[->| ->]]; cbn [run_event_handler].
  - done.
  - by destruct (param "id" params) as [[?|?]|].
  - by destruct (param "userId" params) as [[?|?]|].
Qed.

Lemma eventRouter_get_is_safe_witness :
  snd (eventRouter demo_env
         (request GET [Word "api"; Word "events"; Word "user"; Oid 1]
            (mkQuery None (Some "true"))
            (mkBody None None None None None None None None None None None))
         calendar_store)
  = calendar_store.
Proof. apply eventRouter_get_is_safe. left. reflexivity. Defined.

(** ** Feedback *)

Section feedback.
Local Open Scope list_scope.
Implicit Types (f : Feedback) (l : list Feedback) (st : FeedbackStore).

Lemma rating_ok_spec r :
  rating_ok r = true ↔ ∀ x, r = Some x → (1 ≤ x ≤ 5)%Z.
Proof.
  destruct r as [x|]; simpl.
  - rewrite andb_true_iff, !Z.leb_le. split.
    + intros H y [= <-]. done.
    + intros H. by apply H.
  - split; [by intros _ x | done].
Qed.

Lemma text_ok_spec t : text_ok t = true ↔ t ≠ "".
Proof. unfold text_ok. by rewrite negb_true_iff, String.eqb_neq. Qed.

Lemma associated_spec f :
  associated f = true ↔ is_Some (assignment_id f) ∨ is_Some (subject_id f).
Proof.
  unfold associated. rewrite orb_true_iff.
  destruct (assignment_id f), (subject_id f); simpl;
    split; intros [H|H]; eauto; try done; by destruct H.
Qed.

(** A document that [save_feedback] stores is the validated request. *)
Lemma save_feedback_inr env data st f st' :
  save_feedback env data st = (inr f, st') →
  validate_feedback (fb_next_id st) (now env) data = Some f
  ∧ associated f = true
  ∧ insert_ok env (fb_next_id st) = true
  ∧ st' = mkFeedbackStore (feedbacks st ++ [f]) (S (fb_next_id st)).
Proof.
  unfold save_feedback.
  destruct (validate_feedback _ _ data) as [f0|]; [|done].
  destruct (associated f0) eqn:Ha; [|done]. cbn [negb].
  destruct (insert_ok env (fb_next_id st)); [|done].
  by intros [= <- <-].
Qed.

Lemma save_feedback_inl env data st err st' :
  save_feedback env data st = (inl err, st') → feedbacks st' = feedbacks st.
Proof.
  unfold save_feedback.
  destruct (validate_feedback _ _ data) as [f0|]; [|by intros [= _ <-]].
  destruct (associated f0); cbn [negb]; [|by intros [= _ <-]].
  destruct (insert_ok env (fb_next_id st)); [done | by intros [= _ <-]].
Qed.

Lemma validate_feedback_Some id created data f :
  validate_feedback id created data = Some f →
  fb_id f = id
  ∧ q_advisor_id data = Some (advisor_id f)
  ∧ q_student_id data = Some (student_id f)
  ∧ assignment_id f = q_assignment_id data
  ∧ subject_id f = q_subject_id data
  ∧ q_feedback_text data = Some (feedback_text f)
  ∧ feedback_text f ≠ ""
  ∧ rating f = q_rating data
  ∧ (∀ r, rating f = Some r → (1 ≤ r ≤ 5)%Z)
  ∧ fb_created_at f = created ∧ fb_updated_at f = created.
Proof.
  unfold validate_feedback.
  destruct (q_advisor_id data) as [a|]; [|done].
  destruct (q_student_id data) as [s|]; [|done].
  destruct (q_feedback_text data) as [t|]; [|done].
  destruct (text_ok t) eqn:Ht; [|done].
  destruct (rating_ok (q_rating data)) eqn:Hr; [|done].
  intros [= <-]. simpl.
  apply text_ok_spec in Ht.
  pose proof (proj1 (rating_ok_spec _) Hr) as Hrange. done.
Qed.

(** X16. [createFeedback] answers 201 only for an associated request from
    an existing user whose role is advisor to an existing student, about an
    assignment and a subject that exist where they are given; what it then
    appends is the request as sent, under the next identifier, with a text
    that is not empty and a rating, if any, from 1 to 5. *)
Theorem createFeedback_created (env : Env) (role : ObjectId → string)
    (body : FeedbackBody) (st st' : FeedbackStore) (f : Feedback) :
  createFeedback env role body st = (fres 201 (FOne f), st') →
  feedbacks st' = feedbacks st ++ [f]
  ∧ fb_id f = fb_next_id st
  ∧ q_advisor_id body = Some (advisor_id f)
  ∧ User env (advisor_id f) = true
  ∧ role (advisor_id f) = "advisor"
  ∧ q_student_id body = Some (student_id f)
  ∧ User env (student_id f) = true
  ∧ assignment_id f = q_assignment_id body
  ∧ subject_id f = q_subject_id body
  ∧ (is_Some (assignment_id f) ∨ is_Some (subject_id f))
  ∧ (∀ a, assignment_id f = Some a → Assignment env a = true)
  ∧ (∀ s, subject_id f = Some s → Subject env s = true)
  ∧ q_feedback_text body = Some (feedback_text f)
  ∧ feedback_text f ≠ ""
  ∧ rating f = q_rating body
  ∧ ∀ r, rating f = Some r → (1 ≤ r ≤ 5)%Z.
Proof.
  unfold createFeedback.
  destruct (negb (truthy_id (q_assignment_id body))
            && negb (truthy_id (q_subject_id body))); [done|].
  destruct (q_advisor_id body) as [a|] eqn:Ha; [|done].
  destruct (User env a) eqn:Hua; [|done]. cbn [negb].
  destruct (role a =? "advisor") eqn:Hrole; [|done]. cbn [negb].
  apply String.eqb_eq in Hrole.
  destruct (findById (User env) (q_student_id body)) eqn:Hus; [|done].
  cbn [negb].
  destruct (truthy_id (q_assignment_id body)
            && negb (findById (Assignment env) (q_assignment_id body)))
    eqn:Hasg; [done|].
  destruct (truthy_id (q_subject_id body)
            && negb (findById (Subject env) (q_subject_id body)))
    eqn:Hsub; [done|].
  destruct (save_feedback env body st) as [[err|f0] st0] eqn:Hsave; [done|].
  intros [= <- <-].
  apply save_feedback_inr in Hsave as (Hv & Hassoc & _ & ->).
  apply validate_feedback_Some in Hv
    as (Hid & Hadv & Hstu & Hfa & Hfs & Htext & Hne & Hrat & Hrange & _).
  rewrite Ha in Hadv. injection Hadv as ->.
  rewrite Hstu in Hus. simpl in Hus.
  apply associated_spec in Hassoc.
  split_and!; try done.
  - intros x Hx. rewrite Hfa in Hx. rewrite Hx in Hasg. simpl in Hasg.
    by destruct (Assignment env x).
  - intros x Hx. rewrite Hfs in Hx. rewrite Hx in Hsub. simpl in Hsub.
    by destruct (Subject env x).
Qed.

Lemma createFeedback_created_witness :
  createFeedback demo_env demo_role praise empty_feedback
  = (fres 201 (FOne praise_stored), praised)
  ∧ feedbacks praised = feedbacks empty_feedback ++ [praise_stored]
  ∧ demo_role (advisor_id praise_stored) = "advisor"
  ∧ User demo_env (student_id praise_stored) = true.
Proof.
  split; [reflexivity|].
  destruct (createFeedback_created demo_env demo_role praise empty_feedback
              praised praise_stored eq_refl)
    as (Happ & _ & _ & _ & Hrole & _ & Hstu & _).
  done.
Defined.
End feedback.

Section feedback_store.
Local Open Scope list_scope.
Implicit Types (f : Feedback) (l : list Feedback) (st : FeedbackStore).

Lemma feedback_store_eta st :
  mkFeedbackStore (feedbacks st) (fb_next_id st) = st.
Proof. by destruct st. Qed.

Lemma update_first_feedback_Forall (P : Feedback → Prop) p g l :
  (∀ f, P f → P (g f)) → Forall P l →
  Forall P (update_first_feedback p g l).
Proof.
  intros Hg. induction 1 as [|x l Hx Hl IH]; simpl; [done|].
  destruct (p x); constructor; auto.
Qed.

Lemma delete_first_feedback_Forall (P : Feedback → Prop) p l :
  Forall P l → Forall P (delete_first_feedback p l).
Proof.
  induction 1 as [|x l Hx Hl IH]; simpl; [done|].
  destruct (p x); [done | by constructor].
Qed.

Lemma update_first_feedback_fmap {B} (h : Feedback → B) p g l :
  (∀ f, h (g f) = h f) → h <$> update_first_feedback p g l = h <$> l.
Proof.
  intros Hg. induction l as [|x l IH]; csimpl; [done|].
  destruct (p x); csimpl; [by rewrite Hg | by rewrite IH].
Qed.

Lemma find_update_first_feedback_ne id id' g l :
  (∀ f, fb_id (g f) = fb_id f) → id ≠ id' →
  List.find (has_fb_id id') (update_first_feedback (has_fb_id id) g l)
  = List.find (has_fb_id id') l.
Proof.
  intros Hg Hne. induction l as [|x l IH]; simpl; [done|].
  destruct (has_fb_id id x) eqn:Hx; simpl.
  - apply Nat.eqb_eq in Hx.
    assert (has_fb_id id' x = false) as Hx'
      by (apply Nat.eqb_neq; congruence).
    assert (has_fb_id id' (g x) = false) as ->; [|by rewrite Hx'].
    apply Nat.eqb_neq. rewrite Hg. congruence.
  - by rewrite IH.
Qed.

(** X17. A [createFeedback] that does not answer 201 stores nothing, and
    unless it fails in [save] it leaves the store exactly as it was. A
    request that names neither an assignment nor a subject is answered 400
    before any user is looked up. *)
Theorem createFeedback_rejected (env : Env) (role : ObjectId → string)
    (body : FeedbackBody) (st : FeedbackStore) :
  fstatus (fst (createFeedback env role body st)) ≠ 201%nat →
  feedbacks (snd (createFeedback env role body st)) = feedbacks st
  ∧ (fstatus (fst (createFeedback env role body st)) ≠ 500%nat →
     snd (createFeedback env role body st) = st)
  ∧ (q_assignment_id body = None → q_subject_id body = None →
     fst (createFeedback env role body st)
     = fres 400 (FMessage
         "Feedback must be associated with either an Assignment or a Subject.")).
Proof.
  unfold createFeedback.
  destruct (q_assignment_id body) as [x|] eqn:Hx;
    destruct (q_subject_id body) as [y|] eqn:Hy; cbn [truthy_id negb andb];
    try done.
  all: destruct (q_advisor_id body) as [a|]; [|done].
  all: destruct (User env a); [|done]; cbn [negb].
  all: destruct (role a =? "advisor"); [|done]; cbn [negb].
  all: destruct (findById (User env) (q_student_id body)); [|done];
    cbn [negb].
  all: repeat match goal with
         | |- context [negb (findById ?m ?o)] =>
             destruct (findById m o); cbn [negb andb]; [|done]
         end.
  all: destruct (save_feedback env body st) as [[err|f0] st0] eqn:Hsave;
    [|done].
  all: intros _; apply save_feedback_inl in Hsave; done.
Qed.

Lemma createFeedback_rejected_witness :
  feedbacks (snd (createFeedback demo_env demo_role
                    (mkFeedbackBody (Some 2%nat) (Some 1%nat) (Some 30%nat)
                       None (Some "Swapped roles") None) praised))
  = feedbacks praised.
Proof.
  refine (proj1 (createFeedback_rejected demo_env demo_role _ praised _)).
  discriminate.
Defined.

(** X18. [updateFeedback] writes the text, the rating and [updated_at] and
    nothing else: position by position, every stored feedback keeps its
    identifier, advisor, student, assignment, subject and creation time,
    and every other identifier resolves to the document it resolved to
    before. A call that does not answer 200 leaves the store as it was. *)
Theorem updateFeedback_frame (env : Env) (id : ObjectId)
    (body : FeedbackBody) (st : FeedbackStore) :
  let st' := snd (updateFeedback env id body st) in
  let fixed f := (fb_id f, advisor_id f, student_id f, assignment_id f,
                  subject_id f, fb_created_at f) in
  fixed <$> feedbacks st' = fixed <$> feedbacks st
  ∧ (∀ j, j ≠ id →
          List.find (has_fb_id j) (feedbacks st')
          = List.find (has_fb_id j) (feedbacks st))
  ∧ (fstatus (fst (updateFeedback env id body st)) ≠ 200%nat → st' = st).
Proof.
  unfold updateFeedback.
  destruct (negb _); [done|].
  destruct (List.find (has_fb_id id) (feedbacks st)); [|done].
  cbn [snd fst feedbacks fstatus]. split_and!; [| |done].
  - by apply update_first_feedback_fmap.
  - intros j Hj. by apply find_update_first_feedback_ne.
Qed.

(** Each handler keeps what the schema asks of the stored feedback. *)
Lemma createFeedback_ok env role body st :
  Forall feedback_ok (feedbacks st) →
  Forall feedback_ok (feedbacks (snd (createFeedback env role body st))).
Proof.
  intros Hok. unfold createFeedback.
  destruct (negb (truthy_id (q_assignment_id body)) && _); [done|].
  destruct (q_advisor_id body) as [a|]; [|done].
  destruct (negb (User env a)); [done|].
  destruct (negb (role a =? "advisor")); [done|].
  destruct (negb (findById (User env) (q_student_id body))); [done|].
  destruct (truthy_id (q_assignment_id body) && _); [done|].
  destruct (truthy_id (q_subject_id body) && _); [done|].
  destruct (save_feedback env body st) as [[err|f] st'] eqn:Hs.
  - apply save_feedback_inl in Hs. cbn [snd]. by rewrite Hs.
  - apply save_feedback_inr in Hs as (Hv & Ha & _ & ->). cbn [snd feedbacks].
    apply validate_feedback_Some in Hv
      as (_ & _ & _ & _ & _ & _ & Hne & _ & Hr & _).
    apply associated_spec in Ha.
    apply Forall_app. split; [done|]. by apply Forall_singleton.
Qed.

Lemma updateFeedback_ok env id body st :
  Forall feedback_ok (feedbacks st) →
  Forall feedback_ok (feedbacks (snd (updateFeedback env id body st))).
Proof.
  intros Hok. unfold updateFeedback.
  destruct (match q_feedback_text body with
            | Some t => text_ok t
            | None => true
            end) eqn:Ht; [|done].
  destruct (rating_ok (q_rating body)) eqn:Hr; [|done]. cbn [negb andb].
  destruct (List.find (has_fb_id id) (feedbacks st)); [|done].
  cbn [snd feedbacks].
  apply update_first_feedback_Forall; [|done].
  intros f0 (Hassoc & Htext & Hrange). unfold feedback_ok. simpl.
  split; [done|]. split.
  - destruct (q_feedback_text body) as [t|]; simpl; [|done].
    by apply text_ok_spec.
  - destruct (q_rating body) as [r|]; [|done].
    by apply (proj1 (rating_ok_spec (Some r))).
Qed.

Lemma deleteFeedback_ok id st :
  Forall feedback_ok (feedbacks st) →
  Forall feedback_ok (feedbacks (snd (deleteFeedback id st))).
Proof.
  intros Hok. unfold deleteFeedback.
  destruct (List.find (has_fb_id id) (feedbacks st)); [|done].
  by apply delete_first_feedback_Forall.
Qed.

Lemma resolve_feedbackRoutes_bound m path h params :
  resolve feedbackRoutes m path = Some (h, params) →
  match h with
  | H_updateFeedback | H_deleteFeedback => is_Some (param "id" params)
  | H_getFeedbackByAssignment => is_Some (param "assignmentId" params)
  | H_getFeedbackBySubject => is_Some (param "subjectId" params)
  | _ => True
  end.
Proof.
  intros Hr. apply resolve_Some in Hr as (pattern & Hin & Hm).
  unfold feedbackRoutes in Hin.
  repeat (apply elem_of_cons in Hin as [[= -> -> ->]|Hin]);
    try done;
    try (apply (match_path_binds _ _ _ _ Hm);
         repeat (first [by left | right])).
  by apply elem_of_nil in Hin.
Qed.

(** X19. The feedback router keeps the schema's word on every stored
    feedback, also across updates, which run the validators: if every
    stored feedback has an assignment or a subject, a text that is not
    empty and a rating, if any, from 1 to 5, then so has every feedback
    stored after any request; and the outcome is never left
    undetermined. *)
Theorem feedbackRouter_keeps_feedback_ok (env : Env)
    (role : ObjectId → string) (m : Method) (path : list Segment)
    (signed_in : bool) (body : FeedbackBody) (st : FeedbackStore) :
  Forall feedback_ok (feedbacks st) →
  Forall feedback_ok
    (feedbacks (snd (feedbackRouter env role m path signed_in body st)))
  ∧ fst (feedbackRouter env role m path signed_in body st) ≠ Undetermined.
Proof.
  intros Hok. unfold feedbackRouter.
  destruct (resolve feedbackRoutes m path) as [[h params]|] eqn:Hr; [|done].
  destruct signed_in; [|done].
  apply resolve_feedbackRoutes_bound in Hr.
  destruct h; cbn [run_feedback_handler].
  - pose proof (createFeedback_ok env role body st Hok).
    by destruct (createFeedback env role body st).
  - by destruct (param "studentId" params) as [[?|?]|].
  - destruct Hr as [[w|i] ->]; [done|].
    pose proof (updateFeedback_ok env i body st Hok).
    by destruct (updateFeedback env i body st).
  - destruct Hr as [[w|i] ->]; [done|].
    pose proof (deleteFeedback_ok i st Hok).
    by destruct (deleteFeedback i st).
  - done.
  - destruct Hr as [[w|i] ->]; done.
  - destruct Hr as [[w|i] ->]; done.
Qed.

Lemma feedbackRouter_keeps_feedback_ok_witness :
  let lower := mkFeedbackBody None None None None None (Some 0) in
  Forall feedback_ok
    (feedbacks (snd (feedbackRouter demo_env demo_role PUT
                       [Word "api"; Word "feedback"; Oid 0] true lower
                       praised)))
  ∧ fst (feedbackRouter demo_env demo_role PUT
           [Word "api"; Word "feedback"; Oid 0] true lower praised)
    ≠ Undetermined.
Proof.
  apply feedbackRouter_keeps_feedback_ok.
  apply Forall_singleton. split; [left; by eexists|].
  split; [discriminate|]. intros r [= <-]. lia.
Defined.
End feedback_store.

Section feedback_listings.
Local Open Scope list_scope.

Lemma of_assignment_spec a f :
  of_assignment a f = true ↔ assignment_id f = Some a.
Proof.
  unfold of_assignment. destruct (assignment_id f) as [x|]; [|done].
  rewrite Nat.eqb_eq. split; [by intros -> | by intros [= ->]].
Qed.

Lemma of_subject_spec s f : of_subject s f = true ↔ subject_id f = Some s.
Proof.
  unfold of_subject. destruct (subject_id f) as [x|]; [|done].
  rewrite Nat.eqb_eq. split; [by intros -> | by intros [= ->]].
Qed.

Lemma found_or_404_sorted message (found : list Feedback) :
  (found = [] →
   found_or_404 message (merge_sort created_desc found)
   = fres 404 (FMessage message))
  ∧ (found ≠ [] →
     ∃ l, found_or_404 message (merge_sort created_desc found)
          = fres 200 (FMany l)
          ∧ l ≡ₚ found ∧ StronglySorted created_desc l).
Proof.
  split.
  - by intros ->.
  - intros Hne.
    pose proof (merge_sort_Permutation created_desc found) as Hperm.
    pose proof (StronglySorted_merge_sort created_desc found) as Hsort.
    destruct (merge_sort created_desc found) as [|x l] eqn:Hm.
    + apply Permutation_nil_l in Hperm. done.
    + by exists (x :: l).
Qed.

(** X20. The listings by assignment and by subject refuse to be empty:
    each answers 404 when no stored feedback names the assignment (the
    subject), and otherwise 200 with exactly the feedback that names it,
    each as often as it is stored, newest first. *)
Theorem feedback_listings (st : FeedbackStore) (id : ObjectId) :
  let about_assignment :=
    filter (λ f, assignment_id f = Some id) (feedbacks st) in
  let about_subject :=
    filter (λ f, subject_id f = Some id) (feedbacks st) in
  (about_assignment = [] →
   getFeedbackByAssignment id st
   = fres 404 (FMessage "No feedback found for this assignment"))
  ∧ (about_assignment ≠ [] →
     ∃ l, getFeedbackByAssignment id st = fres 200 (FMany l)
          ∧ l ≡ₚ about_assignment ∧ StronglySorted created_desc l)
  ∧ (about_subject = [] →
     getFeedbackBySubject id st
     = fres 404 (FMessage "No feedback found for this subject"))
  ∧ (about_subject ≠ [] →
     ∃ l, getFeedbackBySubject id st = fres 200 (FMany l)
          ∧ l ≡ₚ about_subject ∧ StronglySorted created_desc l).
Proof.
  intros about_assignment about_subject.
  unfold getFeedbackByAssignment, getFeedbackBySubject.
  rewrite (filter_bool_Prop _ (λ f, assignment_id f = Some id))
    by apply of_assignment_spec.
  rewrite (filter_bool_Prop _ (λ f, subject_id f = Some id))
    by apply of_subject_spec.
  pose proof (found_or_404_sorted "No feedback found for this assignment"
                about_assignment) as [Ha0 Ha1].
  pose proof (found_or_404_sorted "No feedback found for this subject"
                about_subject) as [Hs0 Hs1].
  done.
Qed.

Lemma feedback_listings_witness :
  (∃ l, getFeedbackByAssignment 30 praised = fres 200 (FMany l)
        ∧ l ≡ₚ filter (λ f, assignment_id f = Some 30%nat) (feedbacks praised)
        ∧ StronglySorted created_desc l)
  ∧ getFeedbackBySubject 10 praised
    = fres 404 (FMessage "No feedback found for this subject").
Proof.
  destruct (feedback_listings praised 30) as (_ & Hsome & _).
  destruct (feedback_listings praised 10) as (_ & _ & Hnone & _).
  split; [apply Hsome; discriminate | apply Hnone; reflexivity].
Defined.

(** X21. [GET /api/feedback/:id] never lists anything. The route binds the
    parameter [id], the handler registered for it, [getFeedbackByStudent],
    reads [req.params.studentId]: whatever the segment, also the identifier
    of an existing student with stored feedback, and whatever the store, a
    signed-in request is answered 404 "Student not found". *)
Theorem feedback_by_id_finds_no_student (env : Env)
    (role : ObjectId → string) (seg : Segment) (body : FeedbackBody)
    (st : FeedbackStore) :
  feedbackRouter env role GET [Word "api"; Word "feedback"; seg] true body st
  = (Sent (fres 404 (FMessage "Student not found")), st).
Proof. by destruct seg. Qed.

(** The handler itself lists the feedback of an existing student when it
    is handed one. *)
Lemma getFeedbackByStudent_lists env s st :
  User env s = true →
  ∃ l, getFeedbackByStudent env (Some s) st = fres 200 (FMany l)
       ∧ l = filter (λ f, student_id f = s) (feedbacks st).
Proof.
  intros Hu. unfold getFeedbackByStudent. rewrite Hu. eexists.
  split; [done|]. apply filter_bool_Prop. intros f. apply Nat.eqb_eq.
Qed.
End feedback_listings.

(** ** Grades *)

Section grades.
Local Open Scope list_scope.
Context (env : Env) (schema : GradeFields → bool).
Implicit Types (g : GradeDoc) (l : list GradeDoc) (st : GradeStore).

(** What a [createGrade] that answers 201 has checked and stored. *)
Lemma createGrade_created body st g st' :
  createGrade env schema body st = (gres 201 (GOne g), st') →
  g = mkGradeDoc (g_next_id st) body None
  ∧ st' = mkGradeStore (grades st ++ [g]) (S (g_next_id st))
  ∧ findById (User env) (g_uid body) = true
  ∧ findById (Subject env) (g_s_id body) = true
  ∧ (∀ a, g_a_id body = Some a → Assignment env a = true)
  ∧ schema body = true.
Proof.
  unfold createGrade.
  destruct (findById (User env) (g_uid body)) eqn:Hu; [|done].
  destruct (findById (Subject env) (g_s_id body)) eqn:Hs; [|done].
  cbn [negb].
  destruct (truthy_id (g_a_id body)
            && negb (findById (Assignment env) (g_a_id body))) eqn:Ha;
    [done|].
  destruct (schema body) eqn:Hschema; [|done]. cbn [negb].
  destruct (insert_ok env (g_next_id st)); [|done].
  intros [= <- <-]. split_and!; try done.
  intros a Hsome. rewrite Hsome in Ha. simpl in Ha.
  by destruct (Assignment env a).
Qed.




Lemma update_first_grade_fmap {B} (k : GradeDoc → B) p h l :
  (∀ g, k (h g) = k g) → k <$> update_first_grade p h l = k <$> l.
Proof.
  intros Hh. induction l as [|x l IH]; csimpl; [done|].
  destruct (p x); csimpl; [by rewrite Hh | by rewrite IH].
Qed.


(** X23. [updateGrade] never moves a grade to another user and never
    touches another grade's identity: position by position every stored
    grade keeps its identifier and its [uid], whatever the body carries,
    and a call that does not answer 200 leaves the store as it was. *)
Theorem updateGrade_keeps_uid (id : ObjectId) (body : GradeFields)
    (st : GradeStore) :
  let st' := snd (updateGrade env id body st) in
  let fixed g := (g_id g, g_uid (g_fields g)) in
  fixed <$> grades st' = fixed <$> grades st
  ∧ (gstatus (fst (updateGrade env id body st)) ≠ 200%nat → st' = st).
Proof.
  unfold updateGrade.
  repeat match goal with
         | |- context [if ?c then _ else _] => destruct c; try done
         end.
  destruct (List.find (has_g_id id) (grades st)); [|done].
  cbn [snd fst grades gstatus]. split; [|done].
  by apply update_first_grade_fmap.
Qed.

(** X24. A grade that [createGrade] has stored shows up in the listing of
    its user, after the grades that were listed before, and in no other
    user's listing. *)
Theorem createGrade_then_list (body : GradeFields) (st st' : GradeStore)
    (g : GradeDoc) (u : ObjectId) :
  createGrade env schema body st = (gres 201 (GOne g), st') →
  g_uid body = Some u →
  getGradesByUser env u st'
  = gres 200 (GMany (List.filter (of_user u) (grades st) ++ [g]))
  ∧ ∀ v, v ≠ u → getGradesByUser env v st' = getGradesByUser env v st.
Proof.
  intros Hc Hu.
  apply createGrade_created in Hc as (-> & -> & Huser & _).
  rewrite Hu in Huser. simpl in Huser.
  unfold getGradesByUser. cbn [grades]. rewrite Huser. cbn [negb].
  rewrite !List.filter_app. cbn [List.filter].
  unfold of_user at 2. cbn [g_fields]. rewrite Hu, Nat.eqb_refl.
  split; [done|]. intros v Hv.
  rewrite List.filter_app. cbn [List.filter].
  unfold of_user at 2. cbn [g_fields]. rewrite Hu.
  assert (Nat.eqb u v = false) as -> by (apply Nat.eqb_neq; congruence).
  by rewrite app_nil_r.
Qed.
End grades.


Lemma createGrade_then_list_witness :
  getGradesByUser demo_env 2 graded
  = gres 200 (GMany [mkGradeDoc 0 seventeen None])
  ∧ ∀ v, v ≠ 2%nat →
         getGradesByUser demo_env v graded
         = getGradesByUser demo_env v (mkGradeStore [] 0).
Proof.
  apply (createGrade_then_list demo_env (λ _, true) seventeen
           (mkGradeStore [] 0) graded (mkGradeDoc 0 seventeen None) 2);
    reflexivity.
Defined.

(** ** How the counterpart is selected *)

Lemma eqb_option_string_spec a b : eqb_option_string a b = true ↔ a = b.
Proof.
  destruct a as [x|], b as [y|]; simpl; try done.
  rewrite String.eqb_eq. split; [by intros -> | by intros [= ->]].
Qed.

(** The filter of the query holds of exactly the counterparts. *)
Lemma counterpart_query_spec m e :
  counterpart_query m e = true ↔ counterpart_of m e.
Proof.
  unfold counterpart_query, counterpart_of.
  rewrite !andb_true_iff, String.eqb_eq, Z.eqb_eq, eqb_option_string_spec.
  destruct (related_id e) as [r|], (related_id m) as [r'|];
    rewrite ?Nat.eqb_eq; split.
  - intros ((((? & ?) & ?) & ->) & ->). done.
  - intros (? & ? & ? & [= ->] & [= ->]). done.
  - intros (_ & ?). done.
  - intros (_ & _ & _ & ? & _). done.
  - intros ((_ & ?) & _). done.
  - intros (_ & _ & _ & _ & ?). done.
  - intros (_ & ?). done.
  - intros (_ & _ & _ & ? & _). done.
Qed.

(** C9. [cancelMeeting] selects the counterpart by type, date, time, owner
    and related user, and by nothing else. The filter of its query holds of
    a document exactly when the document is a Meeting on the date and at
    the time of the primary, owned by the primary's related user and
    related to the primary's owner; rewriting the identifier, name,
    description, kind of reference, timestamps and duration of a document
    does not change the answer. On a well-formed store, if some document
    meets these five conditions, a cancellation of a Meeting reports two
    cancelled events and the document it deleted as the counterpart is one
    that meets them; if none does it reports one. Accordingly, after the
    advisor side of a meeting has been renamed, made longer and given
    another reference kind, cancelling the student side still selects it
    as the counterpart and deletes it. *)
Theorem cancelMeeting_matches_five_fields :
  (∀ m e, counterpart_query m e = true ↔ counterpart_of m e)
  ∧ (∀ m e i n ds k c u du,
       counterpart_query m
         (mkEvent i n (type e) ds (date e) (user_id e) (related_id e) k c u
            (time e) du)
       = counterpart_query m e)
  ∧ (∀ st id m,
       wf_store st → Event_findById id st = Some m → type m = "Meeting" →
       ((∃ c, c ∈ events st ∧ counterpart_of m c) →
        ∃ c, c ∈ events st ∧ counterpart_of m c
             ∧ findOne (counterpart_query m) st = Some c
             ∧ fst (cancelMeeting id st)
               = res 200 (JCanceled "Meeting canceled successfully" 2)
             ∧ Event_findById (_id c) (snd (cancelMeeting id st)) = None)
       ∧ ((∀ c, c ∈ events st → ¬ counterpart_of m c) →
          fst (cancelMeeting id st)
          = res 200 (JCanceled "Meeting canceled successfully" 1)
          ∧ S (length (events (snd (cancelMeeting id st))))
            = length (events st)))
  ∧ Event_findById 0 office_hour_store = Some student_side
  ∧ events office_hour_store = [student_side; office_hour]
  ∧ findOne (counterpart_query student_side) office_hour_store
    = Some office_hour
  ∧ name office_hour ≠ name student_side
  ∧ description office_hour ≠ description student_side
  ∧ duration office_hour ≠ duration student_side
  ∧ relatedModel office_hour ≠ Some "User"
  ∧ cancelMeeting 0 office_hour_store
    = (res 200 (JCanceled "Meeting canceled successfully" 2),
       mkStore [] 2).
Proof.
  split; [apply counterpart_query_spec|].
  split; [done|].
  split; [|repeat split; try reflexivity; discriminate].
  intros st id m [Hnd _] Hm Hty.
  pose proof (cancelMeeting_counts id st m Hnd Hm Hty) as Hcount.
  destruct (findOne (counterpart_query m) st) as [c|] eqn:Hc.
  - split.
    + intros _. exists c.
      pose proof Hc as Hfound. unfold findOne in Hfound.
      apply List.find_some in Hfound as [Hin Hq].
      apply list_elem_of_In in Hin. apply counterpart_query_spec in Hq.
      split; [done|]. split; [done|]. split; [done|].
      split; [apply Hcount|].
      by apply (cancelMeeting_removes_counterpart id st m c).
    + intros Hnone. exfalso.
      unfold findOne in Hc. apply List.find_some in Hc as [Hin Hq].
      apply list_elem_of_In in Hin. apply counterpart_query_spec in Hq.
      by apply (Hnone c).
  - split; [|by intros _].
    intros (c & Hin & Hof). exfalso.
    unfold findOne in Hc. apply list_elem_of_In in Hin.
    pose proof (List.find_none _ _ Hc c Hin) as Hq.
    apply counterpart_query_spec in Hof. congruence.
Qed.

Lemma office_hour_store_wf : wf_store office_hour_store.
Proof.
  split.
  - vm_compute. apply (bool_decide_unpack (NoDup [0; 1]%nat)). exact I.
  - vm_compute. repeat constructor.
Defined.

Lemma cancelMeeting_matches_five_fields_witness :
  ∃ c, c ∈ events office_hour_store
       ∧ counterpart_of student_side c
       ∧ findOne (counterpart_query student_side) office_hour_store = Some c
       ∧ fst (cancelMeeting 0 office_hour_store)
         = res 200 (JCanceled "Meeting canceled successfully" 2)
       ∧ Event_findById (_id c) (snd (cancelMeeting 0 office_hour_store))
         = None.
Proof.
  destruct cancelMeeting_matches_five_fields as (_ & _ & Hsel & _).
  destruct (Hsel office_hour_store 0%nat student_side office_hour_store_wf
              eq_refl eq_refl) as [Hsome _].
  apply Hsome. exists office_hour. split.
  - apply list_elem_of_further, list_elem_of_here.
  - repeat split.
Defined.
